(** * Sehati Kafe: transaction settlement and reporting core

    A shallow embedding of the server of the cafe point-of-sale
    (server/src/schema.ts, server/src/db/schema.ts, the handlers and the
    tRPC router) together with the properties of its transaction engine.

    Modelling conventions.
    - A JavaScript [number] carrying money is an exact rational [Q]; the
      embedding does not model binary floating point.  Integers that the
      schema or the column type forces to be whole (ids, quantities,
      limits) are [Z].
    - A [numeric(10,2)] column holds a whole number of hundredths ([Z]);
      writing a decimal text into it rounds to two places and fails when
      the value needs more than ten digits, as PostgreSQL does.
    - Instants ([timestamp] columns, JS [Date]) are [Z].
    - The relational store is a record of row lists in insertion order
      plus the [serial] counters; [ORDER BY] is an interface of the
      store, constrained only by what SQL promises. *)

From Stdlib Require Import ZArith QArith Qround List String Bool Lia.
From Stdlib Require Import Permutation Sorted.
Import ListNotations.

Open Scope Z_scope.

(* ================================================================== *)
(** ** Money at the storage boundary *)
(* ================================================================== *)

Module Numeric.

(** Rounding to the nearest integer, ties away from zero: the rule the
    store applies when a value has more fractional digits than the
    column's scale. *)
Definition round_half_away (q : Q) : Z :=
  if Qle_bool 0 q then Qfloor (q + (1 # 2))%Q
  else Qceiling (q - (1 # 2))%Q.

(** [x.toString()] written into a [numeric(10,2)] column: the amount in
    hundredths, or [None] on "numeric field overflow". *)
Definition numeric_10_2 (q : Q) : option Z :=
  let c := round_half_away (q * 100)%Q in
  if Z.abs c <? 10 ^ 10 then Some c else None.

(** [parseFloat] of the text of a [numeric(10,2)] value. *)
Definition parseFloat (c : Z) : Q := c # 100.

(** An [integer] column: 32-bit signed. *)
Definition int4 (z : Z) : option Z :=
  if (- 2 ^ 31 <=? z) && (z <? 2 ^ 31) then Some z else None.

(** The amount [q] is a whole number [c] of hundredths. *)
Definition is_cents (q : Q) (c : Z) : Prop := (q == c # 100)%Q.

End Numeric.
Export Numeric.

(* ================================================================== *)
(** ** Request and response types (server/src/schema.ts) *)
(* ================================================================== *)

Inductive UserRole := ADMIN | KASIR.

Inductive PaymentMethod := CASH | CARD | DIGITAL_WALLET | BANK_TRANSFER.

(** [transactionItemInputSchema] *)
Record TransactionItemInput := {
  ii_menu_item_id : Z;
  ii_quantity : Z;
  ii_unit_price : Q;
  ii_notes : option string
}.

(** [createTransactionInputSchema]; an absent or [null] optional field is
    [None]. *)
Record CreateTransactionInput := {
  in_customer_name : option string;
  in_customer_phone : option string;
  in_items : list TransactionItemInput;
  in_subtotal : Q;
  in_tax_amount : Q;
  in_discount_amount : Q;
  in_total_amount : Q;
  in_payment_method : PaymentMethod;
  in_payment_received : Q;
  in_notes : option string;
  in_cashier_id : Z
}.

(** [transactionSchema] *)
Record Transaction := {
  t_id : Z;
  t_transaction_date : Z;
  t_customer_name : option string;
  t_customer_phone : option string;
  t_subtotal : Q;
  t_tax_amount : Q;
  t_discount_amount : Q;
  t_total_amount : Q;
  t_payment_method : PaymentMethod;
  t_payment_received : Q;
  t_change_amount : Q;
  t_notes : option string;
  t_cashier_id : Z;
  t_created_at : Z
}.

(** [transactionItemSchema] *)
Record TransactionItem := {
  it_id : Z;
  it_transaction_id : Z;
  it_menu_item_id : Z;
  it_quantity : Z;
  it_unit_price : Q;
  it_total_price : Q;
  it_notes : option string
}.

(** [transactionWithItemsSchema] *)
Record TransactionWithItems := {
  tw_header : Transaction;
  tw_items : list TransactionItem;
  tw_cashier_full_name : string
}.

(** *** Validation ([z.number().positive()] and friends) *)

Definition positive (q : Q) : bool := negb (Qle_bool q 0).
Definition nonnegative (q : Q) : bool := Qle_bool 0 q.

Definition transactionItemInputSchema (i : TransactionItemInput) : bool :=
  (0 <? ii_quantity i) && positive (ii_unit_price i).

Definition createTransactionInputSchema (i : CreateTransactionInput) : bool :=
  (1 <=? Z.of_nat (List.length (in_items i)))
  && forallb transactionItemInputSchema (in_items i)
  && positive (in_subtotal i)
  && nonnegative (in_tax_amount i)
  && nonnegative (in_discount_amount i)
  && positive (in_total_amount i)
  && positive (in_payment_received i).

(* ================================================================== *)
(** ** The relational store (server/src/db/schema.ts) *)
(* ================================================================== *)

Record usersRow := {
  u_id : Z;
  u_username : string;
  u_password : string;
  u_role : UserRole;
  u_full_name : string;
  u_is_active : bool;
  u_created_at : Z;
  u_updated_at : option Z
}.

Record categoriesRow := {
  c_id : Z;
  c_name : string;
  c_description : option string;
  c_is_active : bool;
  c_created_at : Z;
  c_updated_at : option Z
}.

Record menuItemsRow := {
  m_id : Z;
  m_name : string;
  m_description : option string;
  m_price : Z;
  m_category_id : Z;
  m_is_available : bool;
  m_image_url : option string;
  m_created_at : Z;
  m_updated_at : option Z
}.

Record transactionsRow := {
  tx_id : Z;
  tx_transaction_date : Z;
  tx_customer_name : option string;
  tx_customer_phone : option string;
  tx_subtotal : Z;
  tx_tax_amount : Z;
  tx_discount_amount : Z;
  tx_total_amount : Z;
  tx_payment_method : PaymentMethod;
  tx_payment_received : Z;
  tx_change_amount : Z;
  tx_notes : option string;
  tx_cashier_id : Z;
  tx_created_at : Z
}.

Record transactionItemsRow := {
  ti_id : Z;
  ti_transaction_id : Z;
  ti_menu_item_id : Z;
  ti_quantity : Z;
  ti_unit_price : Z;
  ti_total_price : Z;
  ti_notes : option string
}.

(** The five relations and the counters behind their [serial] keys. *)
Record DB := {
  usersTable : list usersRow;
  categoriesTable : list categoriesRow;
  menuItemsTable : list menuItemsRow;
  transactionsTable : list transactionsRow;
  transactionItemsTable : list transactionItemsRow;
  seq_users : Z;
  seq_categories : Z;
  seq_menu_items : Z;
  seq_transactions : Z;
  seq_transaction_items : Z
}.

Definition emptyDB : DB :=
  {| usersTable := []; categoriesTable := []; menuItemsTable := [];
     transactionsTable := []; transactionItemsTable := [];
     seq_users := 1; seq_categories := 1; seq_menu_items := 1;
     seq_transactions := 1; seq_transaction_items := 1 |}.

(** What a request cannot control: the server clock and whether the
    store fails on the [k]-th write of the call. *)
Record Env := {
  env_now : Z;
  env_fault : nat -> bool
}.

Inductive Error :=
| ValidationError
| PersistenceError
| AppError (msg : string).

Inductive result (A : Type) :=
| Ok (a : A)
| Err (e : Error).
Arguments Ok {A} a.
Arguments Err {A} e.

(** Statements run against a connection: they may fail and they thread
    the store. *)
Definition Stmt (A : Type) : Type := DB -> result A * DB.

Definition ret {A} (a : A) : Stmt A := fun db => (Ok a, db).

Definition bind {A B} (m : Stmt A) (k : A -> Stmt B) : Stmt B :=
  fun db =>
    match m db with
    | (Ok a, db') => k a db'
    | (Err e, db') => (Err e, db')
    end.

Notation "x <- m ;; k" := (bind m (fun x => k))
  (at level 61, m at next level, right associativity).

(** Rows written since [before] are discarded; sequence values already
    drawn are not given back. *)
Definition rollback (before after : DB) : DB :=
  {| usersTable := usersTable before;
     categoriesTable := categoriesTable before;
     menuItemsTable := menuItemsTable before;
     transactionsTable := transactionsTable before;
     transactionItemsTable := transactionItemsTable before;
     seq_users := seq_users after;
     seq_categories := seq_categories after;
     seq_menu_items := seq_menu_items after;
     seq_transactions := seq_transactions after;
     seq_transaction_items := seq_transaction_items after |}.

(** [db.transaction(async (tx) => body)]: the body's writes become
    visible together at commit, or not at all.  [commit_fault] says
    whether the commit itself fails. *)
Definition db_transaction {A} (commit_fault : bool) (body : Stmt A) : Stmt A :=
  fun db =>
    match body db with
    | (Ok a, db') =>
        if commit_fault then (Err PersistenceError, rollback db db')
        else (Ok a, db')
    | (Err e, db') => (Err e, rollback db db')
    end.

(** *** Writes *)

(** [x || null] on an optional string: absent, [null] and the empty
    string all become [null]. *)
Definition or_null (o : option string) : option string :=
  match o with
  | Some EmptyString => None
  | _ => o
  end.

Definition has_id {R} (id_of : R -> Z) (rows : list R) (k : Z) : bool :=
  existsb (fun r => id_of r =? k) rows.

(** The object handed to [insert(transactionsTable).values(...)]: money
    as decimal text, still unrounded. *)
Record transactionsValues := {
  tv_customer_name : option string;
  tv_customer_phone : option string;
  tv_subtotal : Q;
  tv_tax_amount : Q;
  tv_discount_amount : Q;
  tv_total_amount : Q;
  tv_payment_method : PaymentMethod;
  tv_payment_received : Q;
  tv_change_amount : Q;
  tv_notes : option string;
  tv_cashier_id : Z
}.

Record transactionItemsValues := {
  iv_transaction_id : Z;
  iv_menu_item_id : Z;
  iv_quantity : Z;
  iv_unit_price : Q;
  iv_total_price : Q;
  iv_notes : option string
}.

(** The row the store builds from the values: every amount coerced to
    its column type, key and timestamps filled by the column defaults.
    [None] when a coercion fails. *)
Definition transactions_row (now id : Z) (v : transactionsValues)
  : option transactionsRow :=
  match numeric_10_2 (tv_subtotal v), numeric_10_2 (tv_tax_amount v),
        numeric_10_2 (tv_discount_amount v), numeric_10_2 (tv_total_amount v),
        numeric_10_2 (tv_payment_received v), numeric_10_2 (tv_change_amount v)
  with
  | Some sub, Some tax, Some disc, Some tot, Some recv, Some chg =>
      Some {| tx_id := id;
              tx_transaction_date := now;
              tx_customer_name := tv_customer_name v;
              tx_customer_phone := tv_customer_phone v;
              tx_subtotal := sub;
              tx_tax_amount := tax;
              tx_discount_amount := disc;
              tx_total_amount := tot;
              tx_payment_method := tv_payment_method v;
              tx_payment_received := recv;
              tx_change_amount := chg;
              tx_notes := tv_notes v;
              tx_cashier_id := tv_cashier_id v;
              tx_created_at := now |}
  | _, _, _, _, _, _ => None
  end.

(** [tx.insert(transactionsTable).values(v).returning().execute()],
    already indexed at [0]. *)
Definition insert_transaction (fault : bool) (now : Z) (v : transactionsValues)
  : Stmt transactionsRow :=
  fun db =>
    if fault then (Err PersistenceError, db)
    else if negb (has_id u_id (usersTable db) (tv_cashier_id v))
    then (Err PersistenceError, db)
    else
      match transactions_row now (seq_transactions db) v with
      | None => (Err PersistenceError, db)
      | Some row =>
          (Ok row,
           {| usersTable := usersTable db;
              categoriesTable := categoriesTable db;
              menuItemsTable := menuItemsTable db;
              transactionsTable := transactionsTable db ++ [row];
              transactionItemsTable := transactionItemsTable db;
              seq_users := seq_users db;
              seq_categories := seq_categories db;
              seq_menu_items := seq_menu_items db;
              seq_transactions := seq_transactions db + 1;
              seq_transaction_items := seq_transaction_items db |})
      end.

Definition transaction_items_row (id : Z) (v : transactionItemsValues)
  : option transactionItemsRow :=
  match int4 (iv_quantity v), numeric_10_2 (iv_unit_price v),
        numeric_10_2 (iv_total_price v)
  with
  | Some q, Some up, Some tp =>
      Some {| ti_id := id;
              ti_transaction_id := iv_transaction_id v;
              ti_menu_item_id := iv_menu_item_id v;
              ti_quantity := q;
              ti_unit_price := up;
              ti_total_price := tp;
              ti_notes := iv_notes v |}
  | _, _, _ => None
  end.

(** Rows for a multi-row [VALUES] list, keys drawn in order from [id];
    [None] as soon as one row is refused (bad reference or coercion). *)
Fixpoint transaction_items_rows (db : DB) (id : Z)
  (vs : list transactionItemsValues) : option (list transactionItemsRow) :=
  match vs with
  | [] => Some []
  | v :: vs' =>
      if has_id tx_id (transactionsTable db) (iv_transaction_id v)
         && has_id m_id (menuItemsTable db) (iv_menu_item_id v)
      then
        match transaction_items_row id v,
              transaction_items_rows db (id + 1) vs' with
        | Some r, Some rs => Some (r :: rs)
        | _, _ => None
        end
      else None
  end.

(** [tx.insert(transactionItemsTable).values(vs).execute()]; the query
    builder refuses an empty list. *)
Definition insert_transaction_items (fault : bool)
  (vs : list transactionItemsValues) : Stmt unit :=
  fun db =>
    match vs with
    | [] => (Err (AppError "values() must be called with at least one value"), db)
    | _ :: _ =>
        if fault then (Err PersistenceError, db)
        else
          match transaction_items_rows db (seq_transaction_items db) vs with
          | None => (Err PersistenceError, db)
          | Some rows =>
              (Ok tt,
               {| usersTable := usersTable db;
                  categoriesTable := categoriesTable db;
                  menuItemsTable := menuItemsTable db;
                  transactionsTable := transactionsTable db;
                  transactionItemsTable := transactionItemsTable db ++ rows;
                  seq_users := seq_users db;
                  seq_categories := seq_categories db;
                  seq_menu_items := seq_menu_items db;
                  seq_transactions := seq_transactions db;
                  seq_transaction_items :=
                    seq_transaction_items db + Z.of_nat (List.length rows) |})
          end
    end.

(* ================================================================== *)
(** ** Transaction handlers (server/src/handlers/transactions.ts) *)
(* ================================================================== *)

(** The header as returned to the caller: numeric columns parsed back
    to numbers. *)
Definition to_Transaction (r : transactionsRow) : Transaction :=
  {| t_id := tx_id r;
     t_transaction_date := tx_transaction_date r;
     t_customer_name := tx_customer_name r;
     t_customer_phone := tx_customer_phone r;
     t_subtotal := parseFloat (tx_subtotal r);
     t_tax_amount := parseFloat (tx_tax_amount r);
     t_discount_amount := parseFloat (tx_discount_amount r);
     t_total_amount := parseFloat (tx_total_amount r);
     t_payment_method := tx_payment_method r;
     t_payment_received := parseFloat (tx_payment_received r);
     t_change_amount := parseFloat (tx_change_amount r);
     t_notes := tx_notes r;
     t_cashier_id := tx_cashier_id r;
     t_created_at := tx_created_at r |}.

Definition itemsToInsert (transaction_id : Z) (items : list TransactionItemInput)
  : list transactionItemsValues :=
  map (fun item =>
         {| iv_transaction_id := transaction_id;
            iv_menu_item_id := ii_menu_item_id item;
            iv_quantity := ii_quantity item;
            iv_unit_price := ii_unit_price item;
            iv_total_price := (inject_Z (ii_quantity item) * ii_unit_price item)%Q;
            iv_notes := or_null (ii_notes item) |})
      items.

(** Writes of one call, in order: [0] the header insert, [1] the items
    insert, [2] the commit. *)
Definition createTransaction (env : Env) (input : CreateTransactionInput)
  : Stmt Transaction :=
  let changeAmount := (in_payment_received input - in_total_amount input)%Q in
  result <-
    db_transaction (env_fault env 2%nat)
      (transaction <-
         insert_transaction (env_fault env 0%nat) (env_now env)
           {| tv_customer_name := or_null (in_customer_name input);
              tv_customer_phone := or_null (in_customer_phone input);
              tv_subtotal := in_subtotal input;
              tv_tax_amount := in_tax_amount input;
              tv_discount_amount := in_discount_amount input;
              tv_total_amount := in_total_amount input;
              tv_payment_method := in_payment_method input;
              tv_payment_received := in_payment_received input;
              tv_change_amount := changeAmount;
              tv_notes := or_null (in_notes input);
              tv_cashier_id := in_cashier_id input |} ;;
       _ <- insert_transaction_items (env_fault env 1%nat)
              (itemsToInsert (tx_id transaction) (in_items input)) ;;
       ret transaction) ;;
  ret (to_Transaction result).

(** *** What the store promises about [ORDER BY ... DESC]

    The result is the input rows rearranged so that the sort key never
    increases.  Nothing is promised about rows with equal keys. *)
Class StorageOrder : Type := {
  order_by_desc : forall {A : Type}, (A -> Z) -> list A -> list A;
  order_by_desc_perm :
    forall (A : Type) (key : A -> Z) (l : list A),
      Permutation l (order_by_desc key l);
  order_by_desc_sorted :
    forall (A : Type) (key : A -> Z) (l : list A),
      StronglySorted (fun a b => key b <= key a) (order_by_desc key l)
}.

(** [new Date(date).setHours(h, m, s, ms)]: the instant of the given wall
    time on the local calendar day of [date]. *)
Class LocalTime : Type := {
  setHours : Z -> Z -> Z -> Z -> Z -> Z
}.

(** [LIMIT l] and [LIMIT l OFFSET o]; a negative argument is an error. *)
Definition sql_limit {A} (l : Z) (rows : list A) : option (list A) :=
  if l <? 0 then None else Some (firstn (Z.to_nat l) rows).

Definition sql_limit_offset {A} (l o : Z) (rows : list A) : option (list A) :=
  if (l <? 0) || (o <? 0) then None
  else Some (firstn (Z.to_nat l) (skipn (Z.to_nat o) rows)).

(** [.from(transactionsTable).innerJoin(usersTable, eq(cashier_id, id))]
    restricted to the headers [ts]; each pair carries
    [cashier_full_name]. *)
Definition join_cashier (db : DB) (ts : list transactionsRow)
  : list (transactionsRow * string) :=
  flat_map
    (fun t =>
       map (fun u => (t, u_full_name u))
           (filter (fun u => tx_cashier_id t =? u_id u) (usersTable db)))
    ts.

Definition to_TransactionItem (r : transactionItemsRow) : TransactionItem :=
  {| it_id := ti_id r;
     it_transaction_id := ti_transaction_id r;
     it_menu_item_id := ti_menu_item_id r;
     it_quantity := ti_quantity r;
     it_unit_price := parseFloat (ti_unit_price r);
     it_total_price := parseFloat (ti_total_price r);
     it_notes := ti_notes r |}.

(** The [Record<number, any[]>] built by [reduce]: [acc[k].push(v)],
    creating the bucket when it is missing. *)
Fixpoint push_item (acc : list (Z * list TransactionItem)) (k : Z)
  (v : TransactionItem) : list (Z * list TransactionItem) :=
  match acc with
  | [] => [(k, [v])]
  | (k', vs) :: rest =>
      if k =? k' then (k', vs ++ [v]) :: rest
      else (k', vs) :: push_item rest k v
  end.

(** [acc[id] || []] *)
Definition items_of (acc : list (Z * list TransactionItem)) (id : Z)
  : list TransactionItem :=
  match find (fun p => fst p =? id) acc with
  | Some (_, vs) => vs
  | None => []
  end.

Definition hydrate (acc : list (Z * list TransactionItem))
  (t : transactionsRow * string) : TransactionWithItems :=
  {| tw_header := to_Transaction (fst t);
     tw_items := items_of acc (tx_id (fst t));
     tw_cashier_full_name := snd t |}.

Definition getTransactions `{StorageOrder} (limit offset : option Z) (db : DB)
  : result (list TransactionWithItems) :=
  let baseQuery :=
    order_by_desc (fun r => tx_created_at (fst r))
                  (join_cashier db (transactionsTable db)) in
  let executed :=
    match limit, offset with
    | Some l, Some o => sql_limit_offset l o baseQuery
    | Some l, None => sql_limit l baseQuery
    | None, _ => Some baseQuery
    end in
  match executed with
  | None => Err PersistenceError
  | Some transactions =>
      let allItems :=
        if (0 <? List.length transactions)%nat then transactionItemsTable db
        else [] in
      let itemsByTransaction :=
        fold_left
          (fun acc item =>
             push_item acc (ti_transaction_id item) (to_TransactionItem item))
          allItems [] in
      Ok (map (hydrate itemsByTransaction) transactions)
  end.

Definition getTransactionById (id : Z) (db : DB) : option TransactionWithItems :=
  let transactionResult :=
    join_cashier db (filter (fun t => tx_id t =? id) (transactionsTable db)) in
  match transactionResult with
  | [] => None
  | transaction :: _ =>
      let items :=
        filter (fun i => ti_transaction_id i =? id) (transactionItemsTable db) in
      Some {| tw_header := to_Transaction (fst transaction);
              tw_items := map to_TransactionItem items;
              tw_cashier_full_name := snd transaction |}
  end.

(** The shared tail of the two filtered listings: bucket the items of
    the found headers only, then hydrate. *)
Definition with_items (db : DB) (transactions : list (transactionsRow * string))
  : list TransactionWithItems :=
  match transactions with
  | [] => []
  | _ :: _ =>
      let transactionIds := map (fun t => tx_id (fst t)) transactions in
      let itemsByTransaction :=
        fold_left
          (fun acc item =>
             if existsb (Z.eqb (ti_transaction_id item)) transactionIds
             then push_item acc (ti_transaction_id item) (to_TransactionItem item)
             else acc)
          (transactionItemsTable db) [] in
      map (hydrate itemsByTransaction) transactions
  end.

Definition in_range (lo hi : Z) (t : transactionsRow) : bool :=
  (lo <=? tx_transaction_date t) && (tx_transaction_date t <=? hi).

Definition getTransactionsByDateRange `{StorageOrder} (startDate endDate : Z)
  (db : DB) : list TransactionWithItems :=
  with_items db
    (order_by_desc (fun r => tx_transaction_date (fst r))
       (join_cashier db
          (filter (in_range startDate endDate) (transactionsTable db)))).

Definition getTransactionsByCashier `{StorageOrder} (cashierId : Z) (db : DB)
  : list TransactionWithItems :=
  with_items db
    (order_by_desc (fun r => tx_transaction_date (fst r))
       (join_cashier db
          (filter (fun t => tx_cashier_id t =? cashierId)
                  (transactionsTable db)))).

(** *** Daily report *)

Record TopSellingItem := {
  name : string;
  quantity : Z;
  revenue : Q
}.

Record DailySalesReport := {
  totalSales : Q;
  totalTransactions : Z;
  averageTransaction : Q;
  topSellingItems : list TopSellingItem
}.

Definition sumZ (l : list Z) : Z := fold_right Z.add 0 l.

(** One output row of the grouped query, before parsing: the grouping
    key and the two sums. *)
Record soldGroup := {
  g_id : Z;
  g_name : string;
  g_quantity : Z;
  g_revenue : Z
}.

(** [transaction_items JOIN transactions JOIN menu_items WHERE date in
    [lo, hi]]: an item row paired with its menu item, once per matching
    header. *)
Definition sold_rows (db : DB) (lo hi : Z)
  : list (transactionItemsRow * menuItemsRow) :=
  flat_map
    (fun it =>
       flat_map
         (fun t =>
            map (fun m => (it, m))
                (filter (fun m => ti_menu_item_id it =? m_id m)
                        (menuItemsTable db)))
         (filter (fun t => (ti_transaction_id it =? tx_id t) && in_range lo hi t)
                 (transactionsTable db)))
    (transactionItemsTable db).

Definition in_group (k : Z) (n : string) (m : menuItemsRow) : bool :=
  (m_id m =? k) && String.eqb (m_name m) n.

(** [GROUP BY menu_items.id, menu_items.name] with [sum(quantity)] and
    [sum(total_price)]. *)
Fixpoint group_add (acc : list soldGroup) (r : transactionItemsRow * menuItemsRow)
  : list soldGroup :=
  match acc with
  | [] => [{| g_id := m_id (snd r); g_name := m_name (snd r);
              g_quantity := ti_quantity (fst r);
              g_revenue := ti_total_price (fst r) |}]
  | g :: rest =>
      if in_group (g_id g) (g_name g) (snd r)
      then {| g_id := g_id g; g_name := g_name g;
              g_quantity := g_quantity g + ti_quantity (fst r);
              g_revenue := g_revenue g + ti_total_price (fst r) |} :: rest
      else g :: group_add rest r
  end.

Definition group_by_menu_item (rows : list (transactionItemsRow * menuItemsRow))
  : list soldGroup :=
  fold_left group_add rows [].

Definition getDailySalesReport `{StorageOrder} `{LocalTime} (date : Z) (db : DB)
  : DailySalesReport :=
  let startOfDay := setHours date 0 0 0 0 in
  let endOfDay := setHours date 23 59 59 999 in
  let matching := filter (in_range startOfDay endOfDay) (transactionsTable db) in
  (* sum() over no rows is NULL; count() is 0 *)
  let dailyTotals_totalSales :=
    match matching with
    | [] => None
    | _ :: _ => Some (sumZ (map tx_total_amount matching))
    end in
  let dailyTotals_totalTransactions := Z.of_nat (List.length matching) in
  let totalSales :=
    match dailyTotals_totalSales with
    | Some s => parseFloat s
    | None => 0%Q
    end in
  let totalTransactions := dailyTotals_totalTransactions in
  let averageTransaction :=
    if 0 <? totalTransactions
    then (totalSales / inject_Z totalTransactions)%Q
    else 0%Q in
  let topSellingQuery :=
    firstn 10
      (order_by_desc g_quantity
         (group_by_menu_item (sold_rows db startOfDay endOfDay))) in
  let topSellingItems :=
    map (fun item => {| name := g_name item;
                        quantity := g_quantity item;
                        revenue := parseFloat (g_revenue item) |})
        topSellingQuery in
  {| totalSales := totalSales;
     totalTransactions := totalTransactions;
     averageTransaction := averageTransaction;
     topSellingItems := topSellingItems |}.

(* ================================================================== *)
(** ** Account and catalog handlers
       (handlers/auth.ts, handlers/categories.ts, handlers/menu_items.ts) *)
(* ================================================================== *)

Definition with_users (db : DB) (us : list usersRow) (next : Z) : DB :=
  {| usersTable := us;
     categoriesTable := categoriesTable db;
     menuItemsTable := menuItemsTable db;
     transactionsTable := transactionsTable db;
     transactionItemsTable := transactionItemsTable db;
     seq_users := next;
     seq_categories := seq_categories db;
     seq_menu_items := seq_menu_items db;
     seq_transactions := seq_transactions db;
     seq_transaction_items := seq_transaction_items db |}.

Definition with_categories (db : DB) (cs : list categoriesRow) (next : Z) : DB :=
  {| usersTable := usersTable db;
     categoriesTable := cs;
     menuItemsTable := menuItemsTable db;
     transactionsTable := transactionsTable db;
     transactionItemsTable := transactionItemsTable db;
     seq_users := seq_users db;
     seq_categories := next;
     seq_menu_items := seq_menu_items db;
     seq_transactions := seq_transactions db;
     seq_transaction_items := seq_transaction_items db |}.

Definition with_menu_items (db : DB) (ms : list menuItemsRow) (next : Z) : DB :=
  {| usersTable := usersTable db;
     categoriesTable := categoriesTable db;
     menuItemsTable := ms;
     transactionsTable := transactionsTable db;
     transactionItemsTable := transactionItemsTable db;
     seq_users := seq_users db;
     seq_categories := seq_categories db;
     seq_menu_items := next;
     seq_transactions := seq_transactions db;
     seq_transaction_items := seq_transaction_items db |}.

(** *** auth.ts *)

Record LoginInput := { li_username : string; li_password : string }.

Record CreateUserInput := {
  cu_username : string;
  cu_password : string;
  cu_role : UserRole;
  cu_full_name : string
}.

(** [userSchema.omit({ password: true })] *)
Record UserWithoutPassword := {
  up_id : Z;
  up_username : string;
  up_role : UserRole;
  up_full_name : string;
  up_is_active : bool;
  up_created_at : Z;
  up_updated_at : option Z
}.

Definition userWithoutPassword (u : usersRow) : UserWithoutPassword :=
  {| up_id := u_id u; up_username := u_username u; up_role := u_role u;
     up_full_name := u_full_name u; up_is_active := u_is_active u;
     up_created_at := u_created_at u; up_updated_at := u_updated_at u |}.

(** The token [jwt-<id>-<Date.now()>], kept as its two numbers. *)
Record LoginResponse := {
  lr_user : UserWithoutPassword;
  lr_token : Z * Z
}.

Definition by_username (n : string) (db : DB) : list usersRow :=
  filter (fun u => String.eqb (u_username u) n) (usersTable db).

Definition loginUser (env : Env) (input : LoginInput) (db : DB)
  : result LoginResponse :=
  match by_username (li_username input) db with
  | [] => Err (AppError "Invalid username or password")
  | user :: _ =>
      if negb (u_is_active user) then Err (AppError "User account is inactive")
      else if negb (String.eqb (u_password user) (li_password input))
      then Err (AppError "Invalid username or password")
      else Ok {| lr_user := userWithoutPassword user;
                 lr_token := (u_id user, env_now env) |}
  end.

Definition insert_user (fault : bool) (now : Z) (username password : string)
  (role : UserRole) (full_name : string) : Stmt usersRow :=
  fun db =>
    if fault then (Err PersistenceError, db)
    else
      match by_username username db with
      | _ :: _ => (Err PersistenceError, db)
      | [] =>
          let row := {| u_id := seq_users db; u_username := username;
                        u_password := password; u_role := role;
                        u_full_name := full_name; u_is_active := true;
                        u_created_at := now; u_updated_at := None |} in
          (Ok row, with_users db (usersTable db ++ [row]) (seq_users db + 1))
      end.

Definition createUser (env : Env) (input : CreateUserInput) : Stmt usersRow :=
  fun db =>
    match by_username (cu_username input) db with
    | _ :: _ => (Err (AppError "Username already exists"), db)
    | [] =>
        insert_user (env_fault env 0%nat) (env_now env) (cu_username input)
          (cu_password input) (cu_role input) (cu_full_name input) db
    end.

Definition initializeDefaultAdmin (env : Env) : Stmt (option usersRow) :=
  fun db =>
    match by_username "admin" db with
    | _ :: _ => (Ok None, db)
    | [] =>
        (result <- insert_user (env_fault env 0%nat) (env_now env) "admin"
                     "admin123" ADMIN "System Administrator" ;;
         ret (Some result)) db
    end.

(** *** categories.ts *)

Record CreateCategoryInput := {
  cc_name : string;
  cc_description : option string
}.

(** An optional nullable field: [None] is [undefined], [Some None] is
    [null]. *)
Record UpdateCategoryInput := {
  uc_id : Z;
  uc_name : option string;
  uc_description : option (option string);
  uc_is_active : option bool
}.

Definition getCategories (db : DB) : list categoriesRow :=
  filter c_is_active (categoriesTable db).

Definition getCategoryById (id : Z) (db : DB) : option categoriesRow :=
  hd_error (filter (fun c => c_id c =? id) (categoriesTable db)).

Definition createCategory (env : Env) (input : CreateCategoryInput)
  : Stmt categoriesRow :=
  fun db =>
    if env_fault env 0%nat then (Err PersistenceError, db)
    else
      let row := {| c_id := seq_categories db; c_name := cc_name input;
                    c_description := or_null (cc_description input);
                    c_is_active := true; c_created_at := env_now env;
                    c_updated_at := None |} in
      (Ok row,
       with_categories db (categoriesTable db ++ [row]) (seq_categories db + 1)).

Definition set_opt {A} (new : option A) (old : A) : A :=
  match new with Some a => a | None => old end.

(** [db.update(categoriesTable).set(f).where(eq(id, k)).returning()] *)
Definition update_categories (fault : bool) (k : Z)
  (f : categoriesRow -> categoriesRow) : Stmt (list categoriesRow) :=
  fun db =>
    if fault then (Err PersistenceError, db)
    else
      (Ok (map f (filter (fun c => c_id c =? k) (categoriesTable db))),
       with_categories db
         (map (fun c => if c_id c =? k then f c else c) (categoriesTable db))
         (seq_categories db)).

Definition updateCategory (env : Env) (input : UpdateCategoryInput)
  : Stmt categoriesRow :=
  result <-
    update_categories (env_fault env 0%nat) (uc_id input)
      (fun c => {| c_id := c_id c;
                   c_name := set_opt (uc_name input) (c_name c);
                   c_description := set_opt (uc_description input) (c_description c);
                   c_is_active := set_opt (uc_is_active input) (c_is_active c);
                   c_created_at := c_created_at c;
                   c_updated_at := Some (env_now env) |}) ;;
  match result with
  | [] => fun db => (Err (AppError "Category with id <id> not found"), db)
  | r :: _ => ret r
  end.

Definition deleteCategory (env : Env) (id : Z) : Stmt bool :=
  result <-
    update_categories (env_fault env 0%nat) id
      (fun c => {| c_id := c_id c; c_name := c_name c;
                   c_description := c_description c;
                   c_is_active := false;
                   c_created_at := c_created_at c;
                   c_updated_at := Some (env_now env) |}) ;;
  ret (0 <? List.length result)%nat.

(** *** menu_items.ts *)

Record CreateMenuItemInput := {
  cm_name : string;
  cm_description : option string;
  cm_price : Q;
  cm_category_id : Z;
  cm_image_url : option string
}.

Record UpdateMenuItemInput := {
  um_id : Z;
  um_name : option string;
  um_description : option (option string);
  um_price : option Q;
  um_category_id : option Z;
  um_is_available : option bool;
  um_image_url : option (option string)
}.

Record MenuItem := {
  mi_row : menuItemsRow;
  mi_price : Q
}.

Definition to_MenuItem (r : menuItemsRow) : MenuItem :=
  {| mi_row := r; mi_price := parseFloat (m_price r) |}.

Definition active_category (id : Z) (db : DB) : list categoriesRow :=
  filter (fun c => (c_id c =? id) && c_is_active c) (categoriesTable db).

Definition getMenuItems (db : DB) : list (MenuItem * string) :=
  flat_map
    (fun m =>
       map (fun c => (to_MenuItem m, c_name c))
           (filter (fun c => (m_category_id m =? c_id c)
                             && m_is_available m && c_is_active c)
                   (categoriesTable db)))
    (menuItemsTable db).

Definition getMenuItemsByCategory (categoryId : Z) (db : DB) : list MenuItem :=
  map to_MenuItem
      (filter (fun m => (m_category_id m =? categoryId) && m_is_available m)
              (menuItemsTable db)).

Definition getMenuItemById (id : Z) (db : DB) : option MenuItem :=
  option_map to_MenuItem
    (hd_error (filter (fun m => m_id m =? id) (menuItemsTable db))).

Definition createMenuItem (env : Env) (input : CreateMenuItemInput)
  : Stmt MenuItem :=
  fun db =>
    match active_category (cm_category_id input) db with
    | [] => (Err (AppError "Category not found or inactive"), db)
    | _ :: _ =>
        if env_fault env 0%nat then (Err PersistenceError, db)
        else
          match numeric_10_2 (cm_price input) with
          | None => (Err PersistenceError, db)
          | Some price =>
              let row := {| m_id := seq_menu_items db; m_name := cm_name input;
                            m_description := or_null (cm_description input);
                            m_price := price;
                            m_category_id := cm_category_id input;
                            m_is_available := true;
                            m_image_url := or_null (cm_image_url input);
                            m_created_at := env_now env;
                            m_updated_at := None |} in
              (Ok (to_MenuItem row),
               with_menu_items db (menuItemsTable db ++ [row])
                 (seq_menu_items db + 1))
          end
    end.

(** [db.update(menuItemsTable).set(f).where(eq(id, k)).returning()];
    [f] fails when a new value does not fit its column. *)
Definition update_menu_items (fault : bool) (k : Z)
  (f : menuItemsRow -> option menuItemsRow) : Stmt (list menuItemsRow) :=
  fun db =>
    if fault then (Err PersistenceError, db)
    else
      let hit := filter (fun m => m_id m =? k) (menuItemsTable db) in
      if forallb (fun m => match f m with Some _ => true | None => false end) hit
      then
        let f' m := match f m with Some m' => m' | None => m end in
        (Ok (map f' hit),
         with_menu_items db
           (map (fun m => if m_id m =? k then f' m else m) (menuItemsTable db))
           (seq_menu_items db))
      else (Err PersistenceError, db).

Definition updateMenuItem (env : Env) (input : UpdateMenuItemInput)
  : Stmt MenuItem :=
  fun db =>
    match filter (fun m => m_id m =? um_id input) (menuItemsTable db) with
    | [] => (Err (AppError "Menu item not found"), db)
    | _ :: _ =>
        let category_ok :=
          match um_category_id input with
          | None => true
          | Some c => (0 <? List.length (active_category c db))%nat
          end in
        if negb category_ok
        then (Err (AppError "Category not found or inactive"), db)
        else
          (results <-
             update_menu_items (env_fault env 0%nat) (um_id input)
               (fun m =>
                  match match um_price input with
                        | None => Some (m_price m)
                        | Some p => numeric_10_2 p
                        end with
                  | None => None
                  | Some price =>
                      Some {| m_id := m_id m;
                              m_name := set_opt (um_name input) (m_name m);
                              m_description :=
                                set_opt (um_description input) (m_description m);
                              m_price := price;
                              m_category_id :=
                                set_opt (um_category_id input) (m_category_id m);
                              m_is_available :=
                                set_opt (um_is_available input) (m_is_available m);
                              m_image_url :=
                                set_opt (um_image_url input) (m_image_url m);
                              m_created_at := m_created_at m;
                              m_updated_at := Some (env_now env) |}
                  end) ;;
           match results with
           | [] => fun db' => (Err PersistenceError, db')
           | r :: _ => ret (to_MenuItem r)
           end) db
    end.

Definition deleteMenuItem (env : Env) (id : Z) : Stmt bool :=
  fun db =>
    match filter (fun m => m_id m =? id) (menuItemsTable db) with
    | [] => (Err (AppError "Menu item not found"), db)
    | _ :: _ =>
        (_ <- update_menu_items (env_fault env 0%nat) id
                (fun m => Some {| m_id := m_id m; m_name := m_name m;
                                  m_description := m_description m;
                                  m_price := m_price m;
                                  m_category_id := m_category_id m;
                                  m_is_available := false;
                                  m_image_url := m_image_url m;
                                  m_created_at := m_created_at m;
                                  m_updated_at := Some (env_now env) |}) ;;
         ret true) db
    end.

(* ================================================================== *)
(** ** The API boundary (server/src/index.ts) *)
(* ================================================================== *)

Definition min_length (n : nat) (s : string) : bool :=
  (n <=? String.length s)%nat.

Definition optional {A} (p : A -> bool) (o : option A) : bool :=
  match o with Some a => p a | None => true end.

Definition createUserInputSchema (i : CreateUserInput) : bool :=
  min_length 3 (cu_username i) && min_length 6 (cu_password i)
  && min_length 2 (cu_full_name i).

Definition createCategoryInputSchema (i : CreateCategoryInput) : bool :=
  min_length 2 (cc_name i).

Definition updateCategoryInputSchema (i : UpdateCategoryInput) : bool :=
  optional (min_length 2) (uc_name i).

Definition createMenuItemInputSchema (i : CreateMenuItemInput) : bool :=
  min_length 2 (cm_name i) && positive (cm_price i).

Definition updateMenuItemInputSchema (i : UpdateMenuItemInput) : bool :=
  optional (min_length 2) (um_name i) && optional positive (um_price i).

(** One constructor per procedure of [appRouter], with its parsed
    input. *)
Inductive Request :=
| Healthcheck
| Login (input : LoginInput)
| CreateUser (input : CreateUserInput)
| InitializeAdmin
| GetCategories
| GetCategoryById (id : Z)
| CreateCategory (input : CreateCategoryInput)
| UpdateCategory (input : UpdateCategoryInput)
| DeleteCategory (id : Z)
| GetMenuItems
| GetMenuItemsByCategory (categoryId : Z)
| GetMenuItemById (id : Z)
| CreateMenuItem (input : CreateMenuItemInput)
| UpdateMenuItem (input : UpdateMenuItemInput)
| DeleteMenuItem (id : Z)
| GetTransactions (input : option (option Z * option Z))
| GetTransactionById (id : Z)
| CreateTransaction (input : CreateTransactionInput)
| GetTransactionsByDateRange (startDate endDate : Z)
| GetTransactionsByCashier (cashierId : Z)
| GetDailySalesReport (date : Z).

Inductive Response :=
| RHealth (timestamp : Z)
| RLogin (r : LoginResponse)
| RUser (u : usersRow)
| RUserOrNull (u : option usersRow)
| RCategories (l : list categoriesRow)
| RCategoryOrNull (c : option categoriesRow)
| RCategory (c : categoriesRow)
| RBool (b : bool)
| RMenuItemsWithCategory (l : list (MenuItem * string))
| RMenuItems (l : list MenuItem)
| RMenuItemOrNull (m : option MenuItem)
| RMenuItem (m : MenuItem)
| RTransactions (l : list TransactionWithItems)
| RTransactionOrNull (t : option TransactionWithItems)
| RTransaction (t : Transaction)
| RReport (r : DailySalesReport).

(** [publicProcedure.input(schema).mutation(handler)]: the handler runs
    only on input the schema accepts. *)
Definition mutation {I A} (schema : I -> bool) (handler : I -> Stmt A)
  (wrap : A -> Response) (input : I) : Stmt Response :=
  fun db =>
    if schema input
    then (a <- handler input ;; ret (wrap a)) db
    else (Err ValidationError, db).

(** [publicProcedure.query(handler)]: a read, the store is untouched. *)
Definition query {A} (handler : DB -> result A) (wrap : A -> Response)
  : Stmt Response :=
  fun db =>
    match handler db with
    | Ok a => (Ok (wrap a), db)
    | Err e => (Err e, db)
    end.

Definition any {I} (_ : I) : bool := true.

Definition appRouter `{StorageOrder} `{LocalTime} (env : Env) (req : Request)
  : Stmt Response :=
  match req with
  | Healthcheck => query (fun _ => Ok (env_now env)) RHealth
  | Login input => query (loginUser env input) RLogin
  | CreateUser input => mutation createUserInputSchema (createUser env) RUser input
  | InitializeAdmin =>
      mutation any (fun _ : unit => initializeDefaultAdmin env) RUserOrNull tt
  | GetCategories => query (fun db => Ok (getCategories db)) RCategories
  | GetCategoryById id =>
      query (fun db => Ok (getCategoryById id db)) RCategoryOrNull
  | CreateCategory input =>
      mutation createCategoryInputSchema (createCategory env) RCategory input
  | UpdateCategory input =>
      mutation updateCategoryInputSchema (updateCategory env) RCategory input
  | DeleteCategory id => mutation any (deleteCategory env) RBool id
  | GetMenuItems => query (fun db => Ok (getMenuItems db)) RMenuItemsWithCategory
  | GetMenuItemsByCategory categoryId =>
      query (fun db => Ok (getMenuItemsByCategory categoryId db)) RMenuItems
  | GetMenuItemById id =>
      query (fun db => Ok (getMenuItemById id db)) RMenuItemOrNull
  | CreateMenuItem input =>
      mutation createMenuItemInputSchema (createMenuItem env) RMenuItem input
  | UpdateMenuItem input =>
      mutation updateMenuItemInputSchema (updateMenuItem env) RMenuItem input
  | DeleteMenuItem id => mutation any (deleteMenuItem env) RBool id
  | GetTransactions input =>
      query (getTransactions (match input with Some i => fst i | None => None end)
                             (match input with Some i => snd i | None => None end))
            RTransactions
  | GetTransactionById id =>
      query (fun db => Ok (getTransactionById id db)) RTransactionOrNull
  | CreateTransaction input =>
      mutation createTransactionInputSchema (createTransaction env)
               RTransaction input
  | GetTransactionsByDateRange startDate endDate =>
      query (fun db => Ok (getTransactionsByDateRange startDate endDate db))
            RTransactions
  | GetTransactionsByCashier cashierId =>
      query (fun db => Ok (getTransactionsByCashier cashierId db)) RTransactions
  | GetDailySalesReport date =>
      query (fun db => Ok (getDailySalesReport date db)) RReport
  end.

(** The store after serving a sequence of requests, each with its own
    clock reading and fault pattern. *)
Definition serve `{StorageOrder} `{LocalTime} (calls : list (Env * Request))
  (db : DB) : DB :=
  fold_left (fun d c => snd (appRouter (fst c) (snd c) d)) calls db.

(** States the server can be in: the empty store after any sequence of
    requests. *)
Definition reachable `{StorageOrder} `{LocalTime} (db : DB) : Prop :=
  exists calls, db = serve calls emptyDB.

(** *** Two stores that both honour [ORDER BY] *)

(** Insertion keeping an earlier row ahead of a later one with the same
    key. *)
Fixpoint insert_desc {A} (key : A -> Z) (x : A) (l : list A) : list A :=
  match l with
  | [] => [x]
  | y :: l' => if key y <=? key x then x :: l else y :: insert_desc key x l'
  end.

Definition sort_desc {A} (key : A -> Z) (l : list A) : list A :=
  fold_right (insert_desc key) [] l.

(** The same, scanning the table backwards: among equal keys the later
    row comes out first. *)
Definition sort_desc_rev {A} (key : A -> Z) (l : list A) : list A :=
  sort_desc key (rev l).

(** UTC wall clock, instants in milliseconds. *)
Definition setHours_utc (date h m s ms : Z) : Z :=
  date - date mod 86400000 + ((h * 60 + m) * 60 + s) * 1000 + ms.

(** *** What the store will take

    A creation request is accepted when no write of the call faults, the
    cashier and every menu item exist, the cart is not empty and every
    value fits its column.  Nothing here compares the payment with the
    total, or the subtotal with the lines. *)
Definition fits (q : Q) : bool :=
  match numeric_10_2 q with Some _ => true | None => false end.

Definition item_accepted (db : DB) (i : TransactionItemInput) : bool :=
  has_id m_id (menuItemsTable db) (ii_menu_item_id i)
  && match int4 (ii_quantity i) with Some _ => true | None => false end
  && fits (ii_unit_price i)
  && fits (inject_Z (ii_quantity i) * ii_unit_price i)%Q.

Definition accepted (env : Env) (input : CreateTransactionInput) (db : DB)
  : bool :=
  negb (env_fault env 0%nat) && negb (env_fault env 1%nat)
  && negb (env_fault env 2%nat)
  && has_id u_id (usersTable db) (in_cashier_id input)
  && fits (in_subtotal input) && fits (in_tax_amount input)
  && fits (in_discount_amount input) && fits (in_total_amount input)
  && fits (in_payment_received input)
  && fits (in_payment_received input - in_total_amount input)%Q
  && match in_items input with [] => false | _ :: _ => true end
  && forallb (item_accepted db) (in_items input).

(** Rows of the two ledger tables that belong to transaction [id]. *)
Definition headers_of (db : DB) (id : Z) : list transactionsRow :=
  filter (fun t => tx_id t =? id) (transactionsTable db).

Definition lines_of (db : DB) (id : Z) : list transactionItemsRow :=
  filter (fun i => ti_transaction_id i =? id) (transactionItemsTable db).

(** Integrity the store maintains: header keys lie below the sequence
    and every line refers to a stored header. *)
Definition consistent (db : DB) : Prop :=
  Forall (fun t => tx_id t < seq_transactions db) (transactionsTable db)
  /\ Forall (fun i => has_id tx_id (transactionsTable db) (ti_transaction_id i) = true)
            (transactionItemsTable db).

(** The five relations, without the counters. *)
Definition same_rows (a b : DB) : Prop :=
  usersTable a = usersTable b
  /\ categoriesTable a = categoriesTable b
  /\ menuItemsTable a = menuItemsTable b
  /\ transactionsTable a = transactionsTable b
  /\ transactionItemsTable a = transactionItemsTable b.

(* ================================================================== *)
(** ** Vocabulary of the properties *)
(* ================================================================== *)

(** The stored header, field by field, in terms of the request. *)
Definition stored_header (env : Env) (db : DB) (input : CreateTransactionInput)
  (row : transactionsRow) : Prop :=
  tx_id row = seq_transactions db
  /\ tx_transaction_date row = env_now env
  /\ tx_created_at row = env_now env
  /\ tx_customer_name row = or_null (in_customer_name input)
  /\ tx_customer_phone row = or_null (in_customer_phone input)
  /\ numeric_10_2 (in_subtotal input) = Some (tx_subtotal row)
  /\ numeric_10_2 (in_tax_amount input) = Some (tx_tax_amount row)
  /\ numeric_10_2 (in_discount_amount input) = Some (tx_discount_amount row)
  /\ numeric_10_2 (in_total_amount input) = Some (tx_total_amount row)
  /\ tx_payment_method row = in_payment_method input
  /\ numeric_10_2 (in_payment_received input) = Some (tx_payment_received row)
  /\ numeric_10_2 (in_payment_received input - in_total_amount input)
     = Some (tx_change_amount row)
  /\ tx_notes row = or_null (in_notes input)
  /\ tx_cashier_id row = in_cashier_id input.

(** The stored line for cart line [i] of transaction [id]. *)
Definition stored_line (id : Z) (i : TransactionItemInput)
  (r : transactionItemsRow) : Prop :=
  ti_transaction_id r = id
  /\ ti_menu_item_id r = ii_menu_item_id i
  /\ ti_quantity r = ii_quantity i
  /\ numeric_10_2 (ii_unit_price i) = Some (ti_unit_price r)
  /\ numeric_10_2 (inject_Z (ii_quantity i) * ii_unit_price i)
     = Some (ti_total_price r)
  /\ ti_notes r = or_null (ii_notes i).

(** [stored] is what the column keeps of [supplied]: the value rounded
    to hundredths, which is the value itself when it has no third
    decimal. *)
Definition kept (supplied : Q) (stored : Z) : Prop :=
  stored = round_half_away (supplied * 100)
  /\ forall c, is_cents supplied c ->
               stored = c /\ (parseFloat stored == supplied)%Q.

(** The header rows behind a listing, in the order returned. *)
Definition created_ats (l : list TransactionWithItems) : list Z :=
  map (fun t => t_created_at (tw_header t)) l.

Definition ids (l : list TransactionWithItems) : list Z :=
  map (fun t => t_id (tw_header t)) l.

(** The rows of the base query: every header with its cashier, newest
    first. *)
Definition baseQuery (O : StorageOrder) (db : DB)
  : list (transactionsRow * string) :=
  order_by_desc (fun r => tx_created_at (fst r))
                (join_cashier db (transactionsTable db)).








(** The ways a creation request can be out of range, as the contract
    lists them. *)
Definition out_of_range (input : CreateTransactionInput) : Prop :=
  in_items input = []
  \/ Exists (fun i => ii_quantity i <= 0) (in_items input)
  \/ Exists (fun i => (ii_unit_price i <= 0)%Q) (in_items input)
  \/ (in_subtotal input <= 0)%Q
  \/ (in_total_amount input <= 0)%Q
  \/ (in_payment_received input <= 0)%Q
  \/ (in_tax_amount input < 0)%Q
  \/ (in_discount_amount input < 0)%Q.

(** The two ledger tables and the header counter are those of [b]. *)
Definition ledger_untouched (a b : DB) : Prop :=
  transactionsTable a = transactionsTable b
  /\ transactionItemsTable a = transactionItemsTable b
  /\ seq_transactions a = seq_transactions b.

(** Case analysis on the innermost scrutinee first, so that no test is
    abstracted together with the code that depends on it. *)
Ltac by_cases :=
  repeat match goal with
         | |- context [match ?x with _ => _ end] =>
             lazymatch x with
             | context [match _ with _ => _ end] => fail
             | _ => destruct x
             end
         end;
  simpl; repeat split.

(** *** Sample data: the fixtures of the handler tests *)

Module Sample.

Definition env : Env :=
  {| env_now := 1754000000000; env_fault := fun _ => false |}.

Definition cashier : usersRow :=
  {| u_id := 1; u_username := "testcashier"; u_password := "password123";
     u_role := KASIR; u_full_name := "Test Cashier"; u_is_active := true;
     u_created_at := 1753000000000; u_updated_at := None |}.

Definition category : categoriesRow :=
  {| c_id := 1; c_name := "Test Category";
     c_description := Some "Test category description"%string;
     c_is_active := true; c_created_at := 1753000000000;
     c_updated_at := None |}.

Definition item1 : menuItemsRow :=
  {| m_id := 1; m_name := "Test Item 1";
     m_description := Some "Test item 1 description"%string;
     m_price := 1550; m_category_id := 1; m_is_available := true;
     m_image_url := None; m_created_at := 1753000000000;
     m_updated_at := None |}.

Definition item2 : menuItemsRow :=
  {| m_id := 2; m_name := "Test Item 2";
     m_description := Some "Test item 2 description"%string;
     m_price := 2500; m_category_id := 1; m_is_available := true;
     m_image_url := None; m_created_at := 1753000000000;
     m_updated_at := None |}.

Definition store : DB :=
  {| usersTable := [cashier]; categoriesTable := [category];
     menuItemsTable := [item1; item2];
     transactionsTable := []; transactionItemsTable := [];
     seq_users := 2; seq_categories := 2; seq_menu_items := 3;
     seq_transactions := 1; seq_transaction_items := 1 |}.

Definition line (menu_item qty : Z) (price : Q) : TransactionItemInput :=
  {| ii_menu_item_id := menu_item; ii_quantity := qty;
     ii_unit_price := price; ii_notes := None |}.

Definition order (items : list TransactionItemInput)
  (sub tax disc total received : Q) : CreateTransactionInput :=
  {| in_customer_name := None; in_customer_phone := None;
     in_items := items;
     in_subtotal := sub; in_tax_amount := tax; in_discount_amount := disc;
     in_total_amount := total; in_payment_method := CASH;
     in_payment_received := received; in_notes := None;
     in_cashier_id := 1 |}.

(** 2 x 15.50 and 1 x 25.00; 56.00 + 5.60 tax, paid with 70.00. *)
Definition cart : CreateTransactionInput :=
  order [line 1 2 (1550 # 100); line 2 1 (2500 # 100)]
        (5600 # 100) (560 # 100) 0 (6160 # 100) (7000 # 100).


(** Amounts with a third decimal: 3 x 1.004, subtotal 10.006, total
    5.004, paid with 10.006. *)
Definition fractional : CreateTransactionInput :=
  order [line 1 3 (1004 # 1000)]
        (10006 # 1000) 0 0 (5004 # 1000) (10006 # 1000).

(** A header that disagrees with its lines: subtotal 999.99 for a cart
    worth 56.00. *)
Definition inconsistent : CreateTransactionInput :=
  order [line 1 2 (1550 # 100); line 2 1 (2500 # 100)]
        (99999 # 100) 0 0 (99999 # 100) (100000 # 100).

(** Two sales recorded at the same instant, as when two tills commit
    together. *)
Definition two_sales : DB :=
  snd (createTransaction env cart (snd (createTransaction env cart store))).

(** The two sales of the report test: 56.00 and 15.50. *)
Definition sale_a : CreateTransactionInput :=
  order [line 1 2 (1550 # 100); line 2 1 (2500 # 100)]
        (5600 # 100) 0 0 (5600 # 100) (6000 # 100).

Definition sale_b : CreateTransactionInput :=
  order [line 1 1 (1550 # 100)]
        (1550 # 100) 0 0 (1550 # 100) (1550 # 100).

Definition day_sales : DB :=
  snd (createTransaction env sale_b (snd (createTransaction env sale_a store))).

(** A cart naming a menu item that does not exist. *)
Definition unknown_item : CreateTransactionInput :=
  order [line 1 2 (1550 # 100); line 99 1 (2500 # 100)]
        (5600 # 100) 0 0 (5600 # 100) (6000 # 100).

(** A call whose commit fails. *)
Definition env_commit_fails : Env :=
  {| env_now := 1754000000000;
     env_fault := fun k => match k with 2%nat => true | _ => false end |}.

End Sample.


(* ================================================================== *)
(** ** The cashier's screen (client/src/components/PosSystem.tsx) *)
(* ================================================================== *)

(** [menuItemWithCategorySchema]: a menu item and the name of its
    category, as [getMenuItems] returns them. *)
Definition MenuItemWithCategory : Type := (MenuItem * string)%type.

Definition mwc_id (m : MenuItemWithCategory) : Z := m_id (mi_row (fst m)).
Definition mwc_price (m : MenuItemWithCategory) : Q := mi_price (fst m).

Record CartItem := {
  ci_menuItem : MenuItemWithCategory;
  ci_quantity : Z;
  ci_notes : option string
}.

(** The state of the component that the checkout reads or resets. *)
Record PosState := {
  ps_cart : list CartItem;
  ps_customerName : string;
  ps_customerPhone : string;
  ps_paymentMethod : PaymentMethod;
  ps_paymentReceived : Q;
  ps_discount : Q;
  ps_notes : string;
  ps_error : string
}.

Definition with_quantity (item : CartItem) (quantity : Z) : CartItem :=
  {| ci_menuItem := ci_menuItem item; ci_quantity := quantity;
     ci_notes := ci_notes item |}.

(** The updater passed to [setCart] by [addToCart]. *)
Definition addToCart (menuItem : MenuItemWithCategory) (prev : list CartItem)
  : list CartItem :=
  match find (fun item => mwc_id (ci_menuItem item) =? mwc_id menuItem) prev with
  | Some existingItem =>
      map (fun item =>
             if mwc_id (ci_menuItem item) =? mwc_id menuItem
             then with_quantity item (ci_quantity item + 1)
             else item)
          prev
  | None =>
      prev ++ [{| ci_menuItem := menuItem; ci_quantity := 1; ci_notes := None |}]
  end.

Definition updateCartQuantity (menuItemId quantity : Z) (prev : list CartItem)
  : list CartItem :=
  if quantity <=? 0
  then filter (fun item => negb (mwc_id (ci_menuItem item) =? menuItemId)) prev
  else map (fun item =>
              if mwc_id (ci_menuItem item) =? menuItemId
              then with_quantity item quantity
              else item)
           prev.

Definition updateCartNotes (menuItemId : Z) (notes : string)
  (prev : list CartItem) : list CartItem :=
  map (fun item =>
         if mwc_id (ci_menuItem item) =? menuItemId
         then {| ci_menuItem := ci_menuItem item;
                 ci_quantity := ci_quantity item;
                 ci_notes := or_null (Some notes) |}
         else item)
      prev.

Definition removeFromCart (menuItemId : Z) (prev : list CartItem)
  : list CartItem :=
  filter (fun item => negb (mwc_id (ci_menuItem item) =? menuItemId)) prev.


Definition subtotal (cart : list CartItem) : Q :=
  fold_left
    (fun sum item =>
       (sum + mwc_price (ci_menuItem item) * inject_Z (ci_quantity item))%Q)
    cart 0%Q.

Definition taxRate : Q := 1 # 10.

Definition taxAmount (s : PosState) : Q := (subtotal (ps_cart s) * taxRate)%Q.
Definition discountAmount (s : PosState) : Q := ps_discount s.
Definition totalAmount (s : PosState) : Q :=
  (subtotal (ps_cart s) + taxAmount s - discountAmount s)%Q.
Definition changeAmount (s : PosState) : Q :=
  (ps_paymentReceived s - totalAmount s)%Q.





(** One event of the cart panel. *)
Inductive CartEvent :=
| AddToCart (menuItem : MenuItemWithCategory)
| UpdateCartQuantity (menuItemId quantity : Z)
| UpdateCartNotes (menuItemId : Z) (notes : string)
| RemoveFromCart (menuItemId : Z)
| ClearCart.

Definition cart_event (cart : list CartItem) (e : CartEvent) : list CartItem :=
  match e with
  | AddToCart menuItem => addToCart menuItem cart
  | UpdateCartQuantity menuItemId quantity =>
      updateCartQuantity menuItemId quantity cart
  | UpdateCartNotes menuItemId notes => updateCartNotes menuItemId notes cart
  | RemoveFromCart menuItemId => removeFromCart menuItemId cart
  | ClearCart => []
  end.

(* ================================================================== *)
(** ** Sales reports (client/src/components/SalesReports.tsx) *)
(* ================================================================== *)





(** [labels[method] || method] for the four methods. *)
Definition getPaymentMethodLabel (method : PaymentMethod) : string :=
  match method with
  | CASH => "Tunai"
  | CARD => "Kartu"
  | DIGITAL_WALLET => "E-Wallet"
  | BANK_TRANSFER => "Transfer Bank"
  end.

(** *** Vocabulary of the further properties *)

(** The entry lists the stored lines of its own header, in table
    order. *)
Definition lists_own_lines (db : DB) (e : TransactionWithItems) : Prop :=
  tw_items e = map to_TransactionItem (lines_of db (t_id (tw_header e))).

(** *** Further sample data *)

Module Fixture.

(** A sale whose customer name and notes were left blank in the form. *)
Definition blank_texts : CreateTransactionInput :=
  {| in_customer_name := Some ""%string; in_customer_phone := None;
     in_items := [ {| ii_menu_item_id := 1; ii_quantity := 1;
                      ii_unit_price := 1550 # 100;
                      ii_notes := Some ""%string |} ];
     in_subtotal := 1550 # 100; in_tax_amount := 0; in_discount_amount := 0;
     in_total_amount := 1550 # 100; in_payment_method := CASH;
     in_payment_received := 2000 # 100; in_notes := Some ""%string;
     in_cashier_id := 1 |}.

(** A cashier to register. *)
Definition new_cashier : CreateUserInput :=
  {| cu_username := "budi"; cu_password := "rahasia1"; cu_role := KASIR;
     cu_full_name := "Budi Santoso" |}.


Definition new_category : CreateCategoryInput :=
  {| cc_name := "Makanan"; cc_description := None |}.

Definition new_menu_item : CreateMenuItemInput :=
  {| cm_name := "Es Teh"; cm_description := None; cm_price := 1825 # 100;
     cm_category_id := 1; cm_image_url := None |}.

(** A new price for the first test item, nothing else supplied. *)
Definition reprice_item : UpdateMenuItemInput :=
  {| um_id := 1; um_name := None; um_description := None;
     um_price := Some (1700 # 100); um_category_id := None;
     um_is_available := None; um_image_url := None |}.






End Fixture.

(** A cart as the panel keeps it: one line per menu item, each with a
    positive quantity. *)
Definition cart_ok (cart : list CartItem) : Prop :=
  NoDup (map (fun item => mwc_id (ci_menuItem item)) cart)
  /\ Forall (fun item => 0 < ci_quantity item) cart.






(** *** The constraints of db/schema.ts

    Keys drawn from a [serial] column are distinct and lie below the
    counter. *)
Definition keys_ok (keys : list Z) (next : Z) : Prop :=
  NoDup keys /\ Forall (fun k => k < next) keys.

(** Primary keys, the unique username, and the four references. *)
Definition integrity (db : DB) : Prop :=
  keys_ok (map u_id (usersTable db)) (seq_users db)
  /\ keys_ok (map c_id (categoriesTable db)) (seq_categories db)
  /\ keys_ok (map m_id (menuItemsTable db)) (seq_menu_items db)
  /\ keys_ok (map tx_id (transactionsTable db)) (seq_transactions db)
  /\ keys_ok (map ti_id (transactionItemsTable db)) (seq_transaction_items db)
  /\ NoDup (map u_username (usersTable db))
  /\ incl (map m_category_id (menuItemsTable db))
          (map c_id (categoriesTable db))
  /\ incl (map tx_cashier_id (transactionsTable db))
          (map u_id (usersTable db))
  /\ incl (map ti_transaction_id (transactionItemsTable db))
          (map tx_id (transactionsTable db))
  /\ incl (map ti_menu_item_id (transactionItemsTable db))
          (map m_id (menuItemsTable db)).

(** No counter runs backwards. *)
Definition seqs_le (a b : DB) : Prop :=
  seq_users a <= seq_users b
  /\ seq_categories a <= seq_categories b
  /\ seq_menu_items a <= seq_menu_items b
  /\ seq_transactions a <= seq_transactions b
  /\ seq_transaction_items a <= seq_transaction_items b.

(** A statement that keeps the constraints, whether it succeeds or
    fails. *)
Definition sound {A} (m : Stmt A) : Prop :=
  forall db, integrity db ->
             integrity (snd (m db)) /\ seqs_le db (snd (m db)).

(** The row [updateMenuItem] writes for [m] when the new price, if any,
    is stored as [price]. *)
Definition updated_menu_item (env : Env) (input : UpdateMenuItemInput)
  (price : option Z) (m : menuItemsRow) : menuItemsRow :=
  {| m_id := m_id m;
     m_name := set_opt (um_name input) (m_name m);
     m_description := set_opt (um_description input) (m_description m);
     m_price := set_opt price (m_price m);
     m_category_id := set_opt (um_category_id input) (m_category_id m);
     m_is_available := set_opt (um_is_available input) (m_is_available m);
     m_image_url := set_opt (um_image_url input) (m_image_url m);
     m_created_at := m_created_at m;
     m_updated_at := Some (env_now env) |}.

(* ================================================================== *)
(** ** Properties *)
(* ================================================================== *)

(** *** Rounding *)

Lemma round_half_away_inject_Z (z : Z) : round_half_away (inject_Z z) = z.
Proof.
  unfold round_half_away.
  destruct (Qle_bool 0 (inject_Z z)).
  - unfold Qfloor, Qplus, inject_Z; simpl.
    replace (z * 2 + 1) with (1 + z * 2) by lia.
    rewrite Z.div_add by lia. reflexivity.
  - unfold Qceiling, Qfloor, Qminus, Qopp, Qplus, inject_Z; simpl.
    replace (- (z * 2 + -1)) with (1 + (- z) * 2) by lia.
    rewrite Z.div_add by lia. simpl. lia.
Qed.

Lemma round_half_away_comp (q q' : Q) :
  (q == q')%Q -> round_half_away q = round_half_away q'.
Proof.
  intros E. unfold round_half_away.
  assert (B : Qle_bool 0 q = Qle_bool 0 q') by (now rewrite E).
  rewrite B. destruct (Qle_bool 0 q').
  - apply Qfloor_comp. rewrite E. reflexivity.
  - apply Qceiling_comp. rewrite E. reflexivity.
Qed.

Lemma is_cents_scaled (q : Q) (c : Z) :
  is_cents q c -> (q * 100 == inject_Z c)%Q.
Proof.
  unfold is_cents. intros E. rewrite E.
  unfold Qeq, Qmult, inject_Z; simpl. lia.
Qed.

(** A whole number of hundredths is stored as it is. *)
Lemma numeric_10_2_cents (q : Q) (c : Z) :
  is_cents q c -> Z.abs c < 10 ^ 10 -> numeric_10_2 q = Some c.
Proof.
  intros E B. unfold numeric_10_2.
  rewrite (round_half_away_comp _ _ (is_cents_scaled _ _ E)).
  rewrite round_half_away_inject_Z.
  apply Z.ltb_lt in B. rewrite B. reflexivity.
Qed.

Lemma numeric_10_2_round (q : Q) (c : Z) :
  numeric_10_2 q = Some c -> c = round_half_away (q * 100).
Proof.
  unfold numeric_10_2.
  destruct (Z.abs _ <? 10 ^ 10); congruence.
Qed.

Lemma numeric_10_2_stored_cents (q : Q) (c s : Z) :
  is_cents q c -> numeric_10_2 q = Some s -> s = c.
Proof.
  intros E N. apply numeric_10_2_round in N.
  rewrite (round_half_away_comp _ _ (is_cents_scaled _ _ E)) in N.
  now rewrite round_half_away_inject_Z in N.
Qed.

Lemma parseFloat_cents (q : Q) (c : Z) : is_cents q c -> (parseFloat c == q)%Q.
Proof. unfold is_cents, parseFloat. intros E. now rewrite E. Qed.



Lemma fits_Some (q : Q) : fits q = true -> exists c, numeric_10_2 q = Some c.
Proof. unfold fits. destruct (numeric_10_2 q); eauto; discriminate. Qed.

(** *** What a successful creation writes *)

Lemma int4_Some (z q : Z) : int4 z = Some q -> q = z.
Proof. unfold int4. destruct (_ && _); congruence. Qed.

Lemma transaction_items_rows_lines (db : DB) (id : Z)
  (items : list TransactionItemInput) :
  forall k rows,
    transaction_items_rows db k (itemsToInsert id items) = Some rows ->
    Forall2 (stored_line id) items rows.
Proof.
  induction items as [|i items IH]; simpl; intros k rows H.
  - injection H as <-. constructor.
  - destruct (_ && _); [|discriminate].
    destruct (transaction_items_row k _) as [r|] eqn:R; [|discriminate].
    destruct (transaction_items_rows db (k + 1) _) as [rs|] eqn:RS; [|discriminate].
    injection H as <-. constructor; eauto.
    unfold stored_line.
    unfold transaction_items_row in R; simpl in R.
    destruct (int4 (ii_quantity i)) as [q|] eqn:Q; [|discriminate].
    destruct (numeric_10_2 (ii_unit_price i)) as [up|]; [|discriminate].
    destruct (numeric_10_2 (inject_Z (ii_quantity i) * ii_unit_price i)) as [tp|];
      [|discriminate].
    injection R as <-. apply int4_Some in Q. subst q.
    repeat split; reflexivity.
Qed.

Lemma createTransaction_Ok (env : Env) (input : CreateTransactionInput)
  (db db' : DB) (t : Transaction) :
  createTransaction env input db = (Ok t, db') ->
  exists row rows,
    stored_header env db input row
    /\ Forall2 (stored_line (tx_id row)) (in_items input) rows
    /\ t = to_Transaction row
    /\ usersTable db' = usersTable db
    /\ categoriesTable db' = categoriesTable db
    /\ menuItemsTable db' = menuItemsTable db
    /\ transactionsTable db' = transactionsTable db ++ [row]
    /\ transactionItemsTable db' = transactionItemsTable db ++ rows
    /\ seq_transactions db' = seq_transactions db + 1
    /\ has_id u_id (usersTable db) (in_cashier_id input) = true.
Proof.
  unfold createTransaction, bind, db_transaction, insert_transaction, ret.
  intros H.
  destruct (env_fault env 0%nat); [discriminate|]. simpl in H.
  destruct (has_id u_id (usersTable db) (in_cashier_id input)) eqn:HC;
    [|discriminate]. simpl in H.
  destruct (transactions_row _ _ _) as [row|] eqn:R; [|discriminate].
  unfold insert_transaction_items in H.
  destruct (itemsToInsert (tx_id row) (in_items input)) as [|v vs] eqn:V;
    [discriminate|].
  destruct (env_fault env 1%nat); [discriminate|].
  rewrite <- V in H. clear V.
  destruct (transaction_items_rows _ _ _) as [rows|] eqn:RS; [|discriminate].
  destruct (env_fault env 2%nat); [discriminate|].
  injection H as <- <-. simpl.
  exists row, rows. unfold stored_header.
  unfold transactions_row in R; simpl in R.
  destruct (numeric_10_2 (in_subtotal input)) as [a1|]; [|discriminate].
  destruct (numeric_10_2 (in_tax_amount input)) as [a2|]; [|discriminate].
  destruct (numeric_10_2 (in_discount_amount input)) as [a3|]; [|discriminate].
  destruct (numeric_10_2 (in_total_amount input)) as [a4|]; [|discriminate].
  destruct (numeric_10_2 (in_payment_received input)) as [a5|]; [|discriminate].
  destruct (numeric_10_2 (in_payment_received input - in_total_amount input))
    as [a6|]; [|discriminate].
  injection R as <-.
  split; [repeat split; reflexivity|].
  split; [eapply transaction_items_rows_lines; exact RS|].
  repeat split; reflexivity.
Qed.

Lemma db_transaction_Err {A} (c : bool) (body : Stmt A) (db db' : DB)
  (e : Error) :
  db_transaction c body db = (Err e, db') -> same_rows db' db.
Proof.
  unfold db_transaction. intros H.
  destruct (body db) as [[a|e'] d].
  - destruct c; [|discriminate]. injection H as _ <-. repeat split.
  - injection H as _ <-. repeat split.
Qed.

Lemma createTransaction_Err (env : Env) (input : CreateTransactionInput)
  (db db' : DB) (e : Error) :
  createTransaction env input db = (Err e, db') -> same_rows db' db.
Proof.
  unfold createTransaction. unfold bind at 1. intros H.
  destruct (db_transaction _ _ db) as [[row|e'] d] eqn:B.
  - discriminate.
  - injection H as _ <-. eapply db_transaction_Err; eauto.
Qed.

Lemma has_id_app {R} (id_of : R -> Z) (l l' : list R) (k : Z) :
  has_id id_of (l ++ l') k = has_id id_of l k || has_id id_of l' k.
Proof. apply existsb_app. Qed.

Lemma transaction_items_rows_Some (db d : DB) (id : Z)
  (items : list TransactionItemInput) :
  menuItemsTable d = menuItemsTable db ->
  has_id tx_id (transactionsTable d) id = true ->
  forallb (item_accepted db) items = true ->
  forall k, exists rows,
    transaction_items_rows d k (itemsToInsert id items) = Some rows.
Proof.
  intros M T. induction items as [|i items IH]; simpl; intros A k.
  - eauto.
  - apply andb_true_iff in A as [Ai A].
    unfold item_accepted in Ai.
    apply andb_true_iff in Ai as [Ai Ftp].
    apply andb_true_iff in Ai as [Ai Fup].
    apply andb_true_iff in Ai as [Hm Hq].
    rewrite T, M, Hm. simpl.
    destruct (IH A (k + 1)) as [rs ->].
    unfold transaction_items_row; simpl.
    destruct (int4 (ii_quantity i)); [|discriminate].
    destruct (fits_Some _ Fup) as [up ->].
    destruct (fits_Some _ Ftp) as [tp ->].
    eauto.
Qed.

(** The store's acceptance is all [createTransaction] asks for. *)
Lemma createTransaction_accepted (env : Env) (input : CreateTransactionInput)
  (db : DB) :
  accepted env input db = true ->
  exists t db', createTransaction env input db = (Ok t, db').
Proof.
  unfold accepted. intros A.
  apply andb_true_iff in A as [A Hitems].
  apply andb_true_iff in A as [A Hne].
  apply andb_true_iff in A as [A Hchg].
  apply andb_true_iff in A as [A Hrecv].
  apply andb_true_iff in A as [A Htot].
  apply andb_true_iff in A as [A Hdisc].
  apply andb_true_iff in A as [A Htax].
  apply andb_true_iff in A as [A Hsub].
  apply andb_true_iff in A as [A Hcash].
  apply andb_true_iff in A as [A F2].
  apply andb_true_iff in A as [F0 F1].
  apply negb_true_iff in F0, F1, F2.
  unfold createTransaction, bind, db_transaction, insert_transaction, ret.
  rewrite F0. cbn [tv_cashier_id]. rewrite Hcash. simpl.
  unfold transactions_row; simpl.
  destruct (fits_Some _ Hsub) as [a1 ->].
  destruct (fits_Some _ Htax) as [a2 ->].
  destruct (fits_Some _ Hdisc) as [a3 ->].
  destruct (fits_Some _ Htot) as [a4 ->].
  destruct (fits_Some _ Hrecv) as [a5 ->].
  destruct (fits_Some _ Hchg) as [a6 ->].
  simpl.
  unfold insert_transaction_items.
  destruct (in_items input) as [|i items] eqn:I; [discriminate|].
  cbn [itemsToInsert map]. rewrite F1.
  match goal with
  | |- context [transaction_items_rows ?d ?k (?v :: map ?f items)] =>
      assert (R : exists rows,
                 transaction_items_rows d k
                   (itemsToInsert (seq_transactions db) (i :: items))
                 = Some rows)
  end.
  { apply (transaction_items_rows_Some db).
    - reflexivity.
    - simpl. rewrite has_id_app. simpl. rewrite Z.eqb_refl.
      now rewrite orb_true_r.
    - exact Hitems. }
  destruct R as [rows R].
  cbn [itemsToInsert map] in R. rewrite R, F2. eauto.
Qed.




(** *** Amounts through a [numeric(10,2)] column *)

Lemma numeric_10_2_kept (q : Q) (s : Z) : numeric_10_2 q = Some s -> kept q s.
Proof.
  intros N. split.
  - now apply numeric_10_2_round.
  - intros c C. pose proof (numeric_10_2_stored_cents _ _ _ C N) as ->.
    split; [reflexivity | now apply parseFloat_cents].
Qed.







(** C4 (as amended).  For every valid request the store accepts, the
    persisted and returned [subtotal], [tax_amount], [discount_amount]
    and [total_amount] are the caller's own values, rounded to
    hundredths by their columns and so exactly as given when they are
    whole hundredths.  They are written from the header fields of the
    request alone: the cart lines do not enter them, and acceptance
    never compares the subtotal with the lines. *)
Theorem createTransaction_header_amounts_as_supplied
  (env : Env) (input : CreateTransactionInput) (db : DB) :
  createTransactionInputSchema input = true ->
  accepted env input db = true ->
  exists t row db',
    createTransaction env input db = (Ok t, db')
    /\ transactionsTable db' = transactionsTable db ++ [row]
    /\ t = to_Transaction row
    /\ kept (in_subtotal input) (tx_subtotal row)
    /\ kept (in_tax_amount input) (tx_tax_amount row)
    /\ kept (in_discount_amount input) (tx_discount_amount row)
    /\ kept (in_total_amount input) (tx_total_amount row).
Proof.
  intros _ A.
  destruct (createTransaction_accepted _ _ _ A) as (t & db' & E).
  destruct (createTransaction_Ok _ _ _ _ _ E)
    as (row & rows & SH & _ & -> & _ & _ & _ & T & _).
  exists (to_Transaction row), row, db'.
  destruct SH as (_ & _ & _ & _ & _ & S1 & S2 & S3 & S4 & _).
  split; [exact E|]. split; [exact T|]. split; [reflexivity|].
  split; [now apply numeric_10_2_kept|].
  split; [now apply numeric_10_2_kept|].
  split; now apply numeric_10_2_kept.
Qed.

Lemma createTransaction_header_amounts_as_supplied_witness :
  exists t row db',
    createTransaction Sample.env Sample.inconsistent Sample.store = (Ok t, db')
    /\ transactionsTable db' = [row]
    /\ t = to_Transaction row
    /\ tx_subtotal row = 99999
    /\ tx_tax_amount row = 0
    /\ tx_discount_amount row = 0
    /\ tx_total_amount row = 99999.
Proof.
  destruct (createTransaction_header_amounts_as_supplied Sample.env
              Sample.inconsistent Sample.store eq_refl eq_refl)
    as (t & row & db' & E & T & R & K1 & K2 & K3 & K4).
  exists t, row, db'.
  split; [exact E|]. split; [exact T|]. split; [exact R|].
  split; [apply (proj2 K1 99999); reflexivity|].
  split; [apply (proj2 K2 0); reflexivity|].
  split; [apply (proj2 K3 0); reflexivity|].
  apply (proj2 K4 99999); reflexivity.
Defined.

(** C4, counterexample to the claim as stated.  The valid request
    [Sample.fractional] supplies a subtotal of 10.006 and a total of
    5.004; what is stored and returned is 10.01 and 5.00. *)
Lemma header_amounts_not_exact_below_hundredths :
  createTransactionInputSchema Sample.fractional = true
  /\ exists t db',
       createTransaction Sample.env Sample.fractional Sample.store = (Ok t, db')
       /\ ~ (t_subtotal t == in_subtotal Sample.fractional)%Q
       /\ ~ (t_total_amount t == in_total_amount Sample.fractional)%Q.
Proof.
  split; [reflexivity|].
  eexists _, _. split; [vm_compute; reflexivity|].
  split; intros E; vm_compute in E; discriminate.
Qed.

(** *** Atomic creation *)

Lemma createTransaction_seq (env : Env) (input : CreateTransactionInput)
  (db : DB) :
  seq_transactions db <= seq_transactions (snd (createTransaction env input db)).
Proof.
  unfold createTransaction, bind, ret, db_transaction, insert_transaction,
    insert_transaction_items.
  by_cases; lia.
Qed.

Lemma consistent_grow (db db' : DB) :
  consistent db -> same_rows db' db ->
  seq_transactions db <= seq_transactions db' -> consistent db'.
Proof.
  intros [H L] (_ & _ & _ & T & I) S. unfold consistent.
  rewrite T, I. split; [|exact L].
  eapply Forall_impl; [|exact H]. simpl. intros; lia.
Qed.

Lemma createTransaction_consistent (env : Env) (input : CreateTransactionInput)
  (db : DB) :
  consistent db -> consistent (snd (createTransaction env input db)).
Proof.
  intros C. pose proof (createTransaction_seq env input db) as S.
  destruct (createTransaction env input db) as [[t|e] db'] eqn:E; simpl in *.
  - destruct (createTransaction_Ok _ _ _ _ _ E)
      as (row & rows & SH & L & _ & _ & _ & _ & T & I & S' & _).
    assert (Hid : tx_id row = seq_transactions db) by apply SH.
    destruct C as [CH CL]. split.
    + rewrite T, S'. apply Forall_app. split.
      * eapply Forall_impl; [|exact CH]. simpl. intros; lia.
      * constructor; [lia | constructor].
    + rewrite T, I. apply Forall_app. split.
      * eapply Forall_impl; [|exact CL]. simpl. intros i Hi.
        rewrite has_id_app, Hi. reflexivity.
      * clear - L. induction L as [|i r items rows (Ei & _) _ IH]; constructor.
        -- rewrite has_id_app. simpl. rewrite Ei, Z.eqb_refl.
           now rewrite orb_true_r.
        -- exact IH.
  - eapply consistent_grow; eauto. eapply createTransaction_Err; eauto.
Qed.

Lemma headers_fresh (db : DB) :
  consistent db -> headers_of db (seq_transactions db) = [].
Proof.
  intros [H _]. unfold headers_of.
  induction H as [|t l Ht _ IH]; simpl; [reflexivity|].
  destruct (Z.eqb_spec (tx_id t) (seq_transactions db)); [lia | exact IH].
Qed.

Lemma has_id_In {R} (id_of : R -> Z) (rows : list R) (k : Z) :
  has_id id_of rows k = true <-> exists r, In r rows /\ id_of r = k.
Proof.
  unfold has_id. rewrite existsb_exists.
  split; intros (r & I & E); exists r; split; auto; now apply Z.eqb_eq.
Qed.

Lemma lines_fresh (db : DB) :
  consistent db -> lines_of db (seq_transactions db) = [].
Proof.
  intros [H L]. unfold lines_of.
  induction L as [|i l Hi _ IH]; simpl; [reflexivity|].
  apply has_id_In in Hi as (t & I & E).
  rewrite Forall_forall in H. specialize (H t I).
  destruct (Z.eqb_spec (ti_transaction_id i) (seq_transactions db));
    [lia | exact IH].
Qed.

Lemma stored_lines_filter (id : Z) (items : list TransactionItemInput)
  (rows : list transactionItemsRow) :
  Forall2 (stored_line id) items rows ->
  filter (fun i => ti_transaction_id i =? id) rows = rows.
Proof.
  induction 1 as [|i r items rows (E & _) _ IH]; simpl; [reflexivity|].
  rewrite E, Z.eqb_refl, IH. reflexivity.
Qed.

Lemma stored_lines_length (id : Z) (items : list TransactionItemInput)
  (rows : list transactionItemsRow) :
  Forall2 (stored_line id) items rows ->
  List.length rows = List.length items.
Proof. intros H. symmetry. eapply Forall2_length; eauto. Qed.

Lemma join_cashier_one (db : DB) (row : transactionsRow) :
  has_id u_id (usersTable db) (tx_cashier_id row) = true ->
  exists n rest, join_cashier db [row] = (row, n) :: rest.
Proof.
  unfold join_cashier, has_id. simpl. rewrite app_nil_r.
  induction (usersTable db) as [|u us IH]; simpl; [discriminate|].
  rewrite (Z.eqb_sym (tx_cashier_id row) (u_id u)).
  destruct (u_id u =? tx_cashier_id row); simpl; eauto.
Qed.

(** C3.  After a call of [createTransaction] on a consistent store,
    either the call succeeded and the store holds exactly one header
    with the new id and exactly the N rows of the cart under that id
    (none before the call, the other tables untouched, and
    [getTransactionById] returns the header with all N lines), or the
    call failed, whatever the reason, and every table is as it was. *)
Theorem createTransaction_atomic
  (env : Env) (input : CreateTransactionInput) (db : DB) :
  consistent db ->
  match createTransaction env input db with
  | (Ok t, db') =>
      exists row rows,
        transactionsTable db' = transactionsTable db ++ [row]
        /\ transactionItemsTable db' = transactionItemsTable db ++ rows
        /\ usersTable db' = usersTable db
        /\ categoriesTable db' = categoriesTable db
        /\ menuItemsTable db' = menuItemsTable db
        /\ t = to_Transaction row
        /\ headers_of db (t_id t) = []
        /\ lines_of db (t_id t) = []
        /\ headers_of db' (t_id t) = [row]
        /\ lines_of db' (t_id t) = rows
        /\ List.length rows = List.length (in_items input)
        /\ (0 < List.length rows)%nat
        /\ (exists cashier_name,
              getTransactionById (t_id t) db'
              = Some {| tw_header := t;
                        tw_items := map to_TransactionItem rows;
                        tw_cashier_full_name := cashier_name |})
        /\ consistent db'
  | (Err _, db') => same_rows db' db
  end.
Proof.
  intros C.
  destruct (createTransaction env input db) as [[t|e] db'] eqn:E;
    [|eapply createTransaction_Err; eauto].
  destruct (createTransaction_Ok _ _ _ _ _ E)
    as (row & rows & SH & L & -> & U & Ca & M & T & I & S & HC).
  assert (Hid : tx_id row = seq_transactions db) by apply SH.
  assert (Hcash : tx_cashier_id row = in_cashier_id input) by apply SH.
  pose proof (headers_fresh db C) as HF.
  pose proof (lines_fresh db C) as LF.
  assert (H' : headers_of db' (tx_id row) = [row]).
  { unfold headers_of in *. rewrite T, filter_app, Hid, HF. simpl.
    now rewrite <- Hid, Z.eqb_refl. }
  assert (L' : lines_of db' (tx_id row) = rows).
  { unfold lines_of in *. rewrite I, filter_app, Hid, LF. simpl.
    rewrite <- Hid. eapply stored_lines_filter; eauto. }
  exists row, rows. simpl.
  split; [exact T|]. split; [exact I|]. split; [exact U|].
  split; [exact Ca|]. split; [exact M|]. split; [reflexivity|].
  rewrite Hid at 1 2.
  split; [exact HF|]. split; [exact LF|].
  split; [exact H'|]. split; [exact L'|].
  split; [eapply stored_lines_length; eauto|].
  split.
  { rewrite (stored_lines_length _ _ _ L).
    unfold createTransaction, bind, db_transaction, insert_transaction,
      insert_transaction_items, ret in E.
    destruct (in_items input); simpl; [|lia].
    destruct (env_fault env 0%nat); [discriminate|].
    destruct (negb _); [discriminate|].
    destruct (transactions_row _ _ _); discriminate. }
  split.
  { unfold getTransactionById.
    fold (headers_of db' (tx_id row)). rewrite H'.
    destruct (join_cashier_one db' row) as (n & rest & J).
    { now rewrite U, Hcash. }
    rewrite J. exists n. simpl.
    fold (lines_of db' (tx_id row)). now rewrite L'. }
  pose proof (createTransaction_consistent env input db C) as C'.
  rewrite E in C'. exact C'.
Qed.

Lemma createTransaction_atomic_witness :
  exists t db' row r1 r2,
    createTransaction Sample.env Sample.cart Sample.store = (Ok t, db')
    /\ headers_of db' (t_id t) = [row]
    /\ lines_of db' (t_id t) = [r1; r2].
Proof.
  assert (C : consistent Sample.store) by (split; constructor).
  pose proof (createTransaction_atomic Sample.env Sample.cart Sample.store C)
    as P.
  destruct (createTransaction Sample.env Sample.cart Sample.store)
    as [[t|e] db'] eqn:E.
  - destruct P as (row & rows & _ & _ & _ & _ & _ & _ & _ & _ & H & L & N & _).
    destruct rows as [|r1 [|r2 [|r3 rows]]]; try discriminate N.
    exists t, db', row, r1, r2. repeat split; assumption.
  - vm_compute in E. discriminate E.
Defined.

(** *** Concrete stores *)

Lemma insert_desc_perm {A} (key : A -> Z) (x : A) (l : list A) :
  Permutation (x :: l) (insert_desc key x l).
Proof.
  induction l as [|y l IH]; simpl; [reflexivity|].
  destruct (key y <=? key x); [reflexivity|].
  rewrite perm_swap. now constructor.
Qed.

Lemma sort_desc_perm {A} (key : A -> Z) (l : list A) :
  Permutation l (sort_desc key l).
Proof.
  induction l as [|x l IH]; simpl; [reflexivity|].
  rewrite <- insert_desc_perm. now constructor.
Qed.

Lemma insert_desc_sorted {A} (key : A -> Z) (x : A) (l : list A) :
  StronglySorted (fun a b => key b <= key a) l ->
  StronglySorted (fun a b => key b <= key a) (insert_desc key x l).
Proof.
  induction 1 as [|y l S IH F]; simpl.
  - constructor; constructor.
  - destruct (Z.leb_spec (key y) (key x)).
    + constructor; [now constructor|].
      constructor; [assumption|].
      eapply Forall_impl; [|exact F]. simpl. intros; lia.
    + constructor; [assumption|].
      eapply Permutation_Forall; [apply insert_desc_perm|].
      constructor; [lia | assumption].
Qed.

Lemma sort_desc_sorted {A} (key : A -> Z) (l : list A) :
  StronglySorted (fun a b => key b <= key a) (sort_desc key l).
Proof.
  induction l as [|x l IH]; simpl; [constructor|].
  now apply insert_desc_sorted.
Qed.

(** A store that breaks ties in insertion order. *)
Definition stable_store : StorageOrder :=
  {| order_by_desc := @sort_desc;
     order_by_desc_perm := @sort_desc_perm;
     order_by_desc_sorted := @sort_desc_sorted |}.

(** A store that breaks ties the other way round. *)
Definition reverse_store : StorageOrder.
Proof.
  refine {| order_by_desc := @sort_desc_rev |}.
  - intros A key l. unfold sort_desc_rev.
    rewrite <- sort_desc_perm. apply Permutation_rev.
  - intros A key l. apply sort_desc_sorted.
Defined.

Definition utc : LocalTime := {| setHours := setHours_utc |}.

(** *** Listing transactions *)

Lemma StronglySorted_map {A B} (f : A -> B) (R : B -> B -> Prop) (l : list A) :
  StronglySorted (fun a b => R (f a) (f b)) l -> StronglySorted R (map f l).
Proof.
  induction 1 as [|a l S IH F]; simpl; constructor; auto.
  apply Forall_map. exact F.
Qed.

Lemma StronglySorted_firstn {A} (R : A -> A -> Prop) (n : nat) (l : list A) :
  StronglySorted R l -> StronglySorted R (firstn n l).
Proof.
  intros S. revert n.
  induction S as [|a l S IH F]; intros [|n]; simpl; try constructor; auto.
  rewrite Forall_forall in *. intros x I. apply F.
  eapply (In_nth_error) in I as [k I].
  rewrite <- (firstn_skipn n l). apply in_or_app. left.
  eapply nth_error_In; eauto.
Qed.

Lemma StronglySorted_skipn {A} (R : A -> A -> Prop) (n : nat) (l : list A) :
  StronglySorted R l -> StronglySorted R (skipn n l).
Proof.
  intros S. revert n.
  induction S as [|a l S IH F]; intros [|n]; simpl; try constructor; auto.
Qed.


(** The unpaginated query always answers, with one entry per row of the
    base query. *)
Lemma getTransactions_all (O : StorageOrder) (offset : option Z) (db : DB) :
  exists acc,
    getTransactions None offset db = Ok (map (hydrate acc) (baseQuery O db)).
Proof. unfold getTransactions. destruct offset; eexists; reflexivity. Qed.



Lemma getTransactions_rows (O : StorageOrder) (limit offset : option Z)
  (db : DB) (page : list TransactionWithItems) :
  getTransactions limit offset db = Ok page ->
  exists acc rows,
    page = map (hydrate acc) rows
    /\ StronglySorted
         (fun a b => tx_created_at (fst b) <= tx_created_at (fst a)) rows.
Proof.
  pose proof (order_by_desc_sorted _ (fun r => tx_created_at (fst r))
                (join_cashier db (transactionsTable db))) as S.
  unfold getTransactions, sql_limit, sql_limit_offset.
  destruct limit as [l|], offset as [o|]; simpl.
  - destruct ((l <? 0) || (o <? 0)); [discriminate|].
    intros E. injection E as <-. eexists _, _. split; [reflexivity|].
    now apply StronglySorted_firstn, StronglySorted_skipn.
  - destruct (l <? 0); [discriminate|].
    intros E. injection E as <-. eexists _, _. split; [reflexivity|].
    now apply StronglySorted_firstn.
  - intros E. injection E as <-. eexists _, _. split; [reflexivity|exact S].
  - intros E. injection E as <-. eexists _, _. split; [reflexivity|exact S].
Qed.

(** C7 (as amended).  Whatever the store holds, [getTransactions] with
    no arguments answers with every stored header that has a cashier,
    and every list it returns, paginated or not, is ordered newest
    first: creation timestamps never increase along it.  The query
    orders by the creation timestamp alone; the order of entries with
    equal timestamps is the store's choice. *)
Theorem getTransactions_newest_first (O : StorageOrder) (db : DB) :
  (exists all,
     getTransactions None None db = Ok all
     /\ Permutation
          (map (fun r => to_Transaction (fst r))
               (join_cashier db (transactionsTable db)))
          (map tw_header all))
  /\ forall limit offset page,
       getTransactions limit offset db = Ok page ->
       StronglySorted
         (fun a b => t_created_at (tw_header b) <= t_created_at (tw_header a))
         page.
Proof.
  split.
  - destruct (getTransactions_all O None db) as (acc & E).
    eexists. split; [exact E|].
    rewrite map_map. simpl.
    apply Permutation_map, order_by_desc_perm.
  - intros limit offset page G.
    apply getTransactions_rows in G as (acc & rows & -> & S).
    apply StronglySorted_map with (f := hydrate acc)
      (R := fun a b => t_created_at (tw_header b) <= t_created_at (tw_header a)).
    exact S.
Qed.

(** C7, counterexample to the claim as stated.  In [Sample.two_sales]
    the headers 1 and 2 carry the same creation timestamp.  Two stores
    that both honour [ORDER BY created_at DESC] answer the same
    unpaginated call differently: one lists 1 before 2, the other 2
    before 1.  No order of the ids is imposed on ties, and the result is
    not determined by the stored data. *)
Lemma getTransactions_ties_left_to_store :
  exists l1 l2,
    @getTransactions stable_store None None Sample.two_sales = Ok l1
    /\ @getTransactions reverse_store None None Sample.two_sales = Ok l2
    /\ created_ats l1 = [1754000000000; 1754000000000]
    /\ created_ats l2 = [1754000000000; 1754000000000]
    /\ ids l1 = [1; 2]
    /\ ids l2 = [2; 1]
    /\ l1 <> l2.
Proof.
  eexists _, _.
  split; [vm_compute; reflexivity|].
  split; [vm_compute; reflexivity|].
  repeat (split; [reflexivity|]).
  intros E. apply (f_equal ids) in E. vm_compute in E. discriminate E.
Qed.

(** *** Daily report *)











(** The joined rows are the item lines of a header dated within the
    window, each beside its menu item. *)
Lemma sold_rows_In (db : DB) (lo hi : Z) (it : transactionItemsRow)
  (m : menuItemsRow) :
  In (it, m) (sold_rows db lo hi)
  <-> In it (transactionItemsTable db)
      /\ In m (menuItemsTable db)
      /\ ti_menu_item_id it = m_id m
      /\ exists t, In t (transactionsTable db)
                   /\ ti_transaction_id it = tx_id t
                   /\ lo <= tx_transaction_date t <= hi.
Proof.
  unfold sold_rows, in_range. rewrite in_flat_map. split.
  - intros (it' & Iit & I).
    apply in_flat_map in I as (t & It & I).
    apply in_map_iff in I as (m' & E & Im).
    injection E as -> ->.
    apply filter_In in It as [It Ht], Im as [Im Hm].
    apply andb_true_iff in Ht as [Ht Hr].
    apply andb_true_iff in Hr as [H1 H2].
    apply Z.eqb_eq in Ht, Hm. apply Z.leb_le in H1, H2.
    repeat split; eauto 10.
  - intros (Iit & Im & Hm & t & It & Ht & H1 & H2).
    exists it. split; [exact Iit|].
    apply in_flat_map. exists t. split.
    + apply filter_In. split; [exact It|].
      rewrite Ht, Z.eqb_refl. simpl.
      apply andb_true_iff. split; now apply Z.leb_le.
    + apply in_map, filter_In. split; [exact Im | now apply Z.eqb_eq].
Qed.

Lemma In_firstn {A} (n : nat) (l : list A) (x : A) :
  In x (firstn n l) -> In x l.
Proof.
  intros I. rewrite <- (firstn_skipn n l). apply in_or_app. now left.
Qed.


Lemma filter_and_nil {A} (p q : A -> bool) (l : list A) :
  filter q l = [] -> filter (fun x => p x && q x) l = [].
Proof.
  induction l as [|x l IH]; simpl; [reflexivity|].
  destruct (q x); [discriminate|].
  rewrite andb_false_r. exact IH.
Qed.

Lemma flat_map_nil {A B} (f : A -> list B) (l : list A) :
  (forall a, f a = []) -> flat_map f l = [].
Proof.
  intros H. induction l as [|a l IH]; simpl; [reflexivity|].
  now rewrite H, IH.
Qed.

(** C6.  For every date, [totalTransactions] is the number of headers
    dated within the calendar day.  When there is none the report is
    [totalSales = 0], [totalTransactions = 0], [averageTransaction = 0]
    (the literal zero of the guard's other branch, no quotient is
    formed) and no top-selling item.  When there are some,
    [totalSales] is the sum of their [total_amount] and
    [averageTransaction] is [totalSales / totalTransactions]. *)
Theorem getDailySalesReport_totals
  (O : StorageOrder) (L : LocalTime) (date : Z) (db : DB) :
  let matching :=
    filter (in_range (setHours date 0 0 0 0) (setHours date 23 59 59 999))
           (transactionsTable db) in
  let report := getDailySalesReport date db in
  totalTransactions report = Z.of_nat (List.length matching)
  /\ (matching = [] ->
      report = {| totalSales := 0%Q; totalTransactions := 0;
                  averageTransaction := 0%Q; topSellingItems := [] |})
  /\ (matching <> [] ->
      totalSales report = parseFloat (sumZ (map tx_total_amount matching))
      /\ 0 < totalTransactions report
      /\ averageTransaction report
         = (totalSales report / inject_Z (totalTransactions report))%Q).
Proof.
  intros matching report. subst report. unfold getDailySalesReport.
  fold matching. cbn [totalTransactions totalSales averageTransaction].
  split; [reflexivity|]. split.
  - intros E.
    assert (Sold : sold_rows db (setHours date 0 0 0 0)
                     (setHours date 23 59 59 999) = []).
    { unfold sold_rows. apply flat_map_nil. intros it.
      rewrite filter_and_nil by exact E. reflexivity. }
    rewrite Sold, E. unfold group_by_menu_item. cbn [fold_left].
    pose proof (order_by_desc_perm soldGroup g_quantity []) as P.
    apply Permutation_nil in P. rewrite P. reflexivity.
  - intros NE. destruct matching as [|t ts]; [contradiction|].
    cbn [List.length]. rewrite Nat2Z.inj_succ.
    destruct (Z.ltb_spec 0 (Z.succ (Z.of_nat (List.length ts)))) as [Pos|]; [|lia].
    split; [reflexivity|]. split; [exact Pos | reflexivity].
Qed.

(** *** Validation at the boundary *)

Lemma positive_false (q : Q) : (q <= 0)%Q -> positive q = false.
Proof.
  intros H. unfold positive. apply Qle_bool_iff in H. now rewrite H.
Qed.

Lemma nonnegative_false (q : Q) : (q < 0)%Q -> nonnegative q = false.
Proof.
  intros H. unfold nonnegative.
  destruct (Qle_bool 0 q) eqn:E; [|reflexivity].
  apply Qle_bool_iff in E. exfalso. now apply (Qlt_not_le _ _ H).
Qed.

Lemma forallb_Exists_false {A} (p : A -> bool) (l : list A) :
  Exists (fun a => p a = false) l -> forallb p l = false.
Proof.
  induction 1 as [a l H|a l _ IH]; simpl.
  - now rewrite H.
  - rewrite IH. apply andb_false_r.
Qed.

Lemma out_of_range_refused (input : CreateTransactionInput) :
  out_of_range input -> createTransactionInputSchema input = false.
Proof.
  unfold out_of_range, createTransactionInputSchema.
  intros [H|[H|[H|[H|[H|[H|[H|H]]]]]]].
  - rewrite H. reflexivity.
  - rewrite (forallb_Exists_false transactionItemInputSchema).
    + now rewrite andb_false_r.
    + eapply Exists_impl; [|exact H]. simpl. intros i Hi.
      unfold transactionItemInputSchema.
      destruct (Z.ltb_spec 0 (ii_quantity i)); [lia | reflexivity].
  - rewrite (forallb_Exists_false transactionItemInputSchema).
    + now rewrite andb_false_r.
    + eapply Exists_impl; [|exact H]. simpl. intros i Hi.
      unfold transactionItemInputSchema.
      rewrite (positive_false _ Hi). apply andb_false_r.
  - rewrite (positive_false _ H). now rewrite !andb_false_r.
  - rewrite (positive_false _ H). now rewrite !andb_false_r.
  - rewrite (positive_false _ H). now rewrite !andb_false_r.
  - rewrite (nonnegative_false _ H). now rewrite !andb_false_r.
  - rewrite (nonnegative_false _ H). now rewrite !andb_false_r.
Qed.

(** C8.  A creation request with an empty cart, a line of quantity at
    most zero or unit price at most zero, a subtotal, total or payment
    at most zero, or a negative tax or discount is answered by the
    router with a validation error; the handler is not called and the
    store, counters included, is the one before the request. *)
Theorem createTransaction_rejected_at_boundary
  (O : StorageOrder) (L : LocalTime) (env : Env)
  (input : CreateTransactionInput) (db : DB) :
  out_of_range input ->
  appRouter env (CreateTransaction input) db = (Err ValidationError, db).
Proof.
  intros H. unfold appRouter, mutation.
  now rewrite (out_of_range_refused _ H).
Qed.

Lemma createTransaction_rejected_at_boundary_witness :
  out_of_range
    (Sample.order [Sample.line 1 0 (1550 # 100)] 0 0 0 0 (7000 # 100))
  /\ @appRouter stable_store utc Sample.env
       (CreateTransaction
          (Sample.order [Sample.line 1 0 (1550 # 100)] 0 0 0 0 (7000 # 100)))
       Sample.store
     = (Err ValidationError, Sample.store).
Proof.
  assert (H : out_of_range
                (Sample.order [Sample.line 1 0 (1550 # 100)] 0 0 0 0
                   (7000 # 100))).
  { right. left. constructor. simpl. lia. }
  split; [exact H|].
  exact (createTransaction_rejected_at_boundary stable_store utc Sample.env
           _ Sample.store H).
Defined.

(** *** The ledger is append-only *)

Lemma ledger_untouched_refl (db : DB) : ledger_untouched db db.
Proof. repeat split. Qed.

Lemma createUser_ledger (env : Env) (input : CreateUserInput) (db : DB) :
  ledger_untouched (snd (createUser env input db)) db.
Proof. unfold createUser, insert_user. by_cases. Qed.

Lemma initializeDefaultAdmin_ledger (env : Env) (db : DB) :
  ledger_untouched (snd (initializeDefaultAdmin env db)) db.
Proof. unfold initializeDefaultAdmin, bind, ret, insert_user. by_cases. Qed.

Lemma createCategory_ledger (env : Env) (input : CreateCategoryInput) (db : DB) :
  ledger_untouched (snd (createCategory env input db)) db.
Proof. unfold createCategory. by_cases. Qed.

Lemma updateCategory_ledger (env : Env) (input : UpdateCategoryInput) (db : DB) :
  ledger_untouched (snd (updateCategory env input db)) db.
Proof. unfold updateCategory, bind, ret, update_categories. by_cases. Qed.

Lemma deleteCategory_ledger (env : Env) (id : Z) (db : DB) :
  ledger_untouched (snd (deleteCategory env id db)) db.
Proof. unfold deleteCategory, bind, ret, update_categories. by_cases. Qed.

Lemma createMenuItem_ledger (env : Env) (input : CreateMenuItemInput) (db : DB) :
  ledger_untouched (snd (createMenuItem env input db)) db.
Proof. unfold createMenuItem. by_cases. Qed.

Lemma updateMenuItem_ledger (env : Env) (input : UpdateMenuItemInput) (db : DB) :
  ledger_untouched (snd (updateMenuItem env input db)) db.
Proof. unfold updateMenuItem, bind, ret, update_menu_items. by_cases. Qed.

Lemma deleteMenuItem_ledger (env : Env) (id : Z) (db : DB) :
  ledger_untouched (snd (deleteMenuItem env id db)) db.
Proof. unfold deleteMenuItem, bind, ret, update_menu_items. by_cases. Qed.

Lemma mutation_snd {I A} (schema : I -> bool) (handler : I -> Stmt A)
  (wrap : A -> Response) (input : I) (db : DB) :
  snd (mutation schema handler wrap input db)
  = if schema input then snd (handler input db) else db.
Proof.
  unfold mutation, bind, ret.
  destruct (schema input); [|reflexivity].
  destruct (handler input db) as [[a|e] d]; reflexivity.
Qed.

Lemma query_snd {A} (handler : DB -> result A) (wrap : A -> Response)
  (db : DB) : snd (query handler wrap db) = db.
Proof. unfold query. destruct (handler db); reflexivity. Qed.

(** What one creation does to the ledger, success or failure. *)
Lemma createTransaction_ledger (env : Env) (input : CreateTransactionInput)
  (db : DB) :
  exists ts ls,
    transactionsTable (snd (createTransaction env input db))
    = transactionsTable db ++ ts
    /\ transactionItemsTable (snd (createTransaction env input db))
       = transactionItemsTable db ++ ls.
Proof.
  destruct (createTransaction env input db) as [[t|e] db'] eqn:E; simpl.
  - destruct (createTransaction_Ok _ _ _ _ _ E)
      as (row & rows & _ & _ & _ & _ & _ & _ & T & I & _).
    eauto.
  - destruct (createTransaction_Err _ _ _ _ _ E) as (_ & _ & _ & T & I).
    exists [], []. now rewrite !app_nil_r.
Qed.

Lemma appRouter_ledger (O : StorageOrder) (L : LocalTime) (env : Env)
  (req : Request) (db : DB) :
  exists ts ls,
    transactionsTable (snd (appRouter env req db)) = transactionsTable db ++ ts
    /\ transactionItemsTable (snd (appRouter env req db))
       = transactionItemsTable db ++ ls.
Proof.
  assert (U : forall d, ledger_untouched d db ->
                exists ts ls,
                  transactionsTable d = transactionsTable db ++ ts
                  /\ transactionItemsTable d = transactionItemsTable db ++ ls).
  { intros d (T & I & _). exists [], []. now rewrite !app_nil_r. }
  destruct req; unfold appRouter;
    rewrite ?mutation_snd, ?query_snd;
    try (apply U, ledger_untouched_refl);
    match goal with
    | |- context [if ?b then _ else _] =>
        destruct b; [|apply U, ledger_untouched_refl]
    end.
  - apply U, createUser_ledger.
  - apply U, initializeDefaultAdmin_ledger.
  - apply U, createCategory_ledger.
  - apply U, updateCategory_ledger.
  - apply U, deleteCategory_ledger.
  - apply U, createMenuItem_ledger.
  - apply U, updateMenuItem_ledger.
  - apply U, deleteMenuItem_ledger.
  - apply createTransaction_ledger.
Qed.

(** C9.  Serving any sequence of requests, from any store, leaves every
    row of [transactions] and of [transaction_items] where it was and
    as it was: the two tables after the sequence are the tables before
    it, followed by the rows created meanwhile. *)
Theorem ledger_append_only (O : StorageOrder) (L : LocalTime)
  (calls : list (Env * Request)) (db : DB) :
  exists ts ls,
    transactionsTable (serve calls db) = transactionsTable db ++ ts
    /\ transactionItemsTable (serve calls db)
       = transactionItemsTable db ++ ls.
Proof.
  unfold serve. revert db.
  induction calls as [|[env req] calls IH]; intros db; simpl.
  - exists [], []. now rewrite !app_nil_r.
  - destruct (IH (snd (appRouter env req db))) as (ts & ls & T & I).
    destruct (appRouter_ledger O L env req db) as (ts0 & ls0 & T0 & I0).
    exists (ts0 ++ ts), (ls0 ++ ls).
    rewrite T, I, T0, I0, !app_assoc. auto.
Qed.

(** *** Reachable stores are consistent *)

Lemma ledger_untouched_consistent (db db' : DB) :
  consistent db -> ledger_untouched db' db -> consistent db'.
Proof.
  intros C (T & I & S). unfold consistent. now rewrite T, I, S.
Qed.

Lemma appRouter_consistent (O : StorageOrder) (L : LocalTime) (env : Env)
  (req : Request) (db : DB) :
  consistent db -> consistent (snd (appRouter env req db)).
Proof.
  intros C.
  destruct req; unfold appRouter;
    rewrite ?mutation_snd, ?query_snd; try exact C;
    match goal with
    | |- context [if ?b then _ else _] => destruct b; [|exact C]
    end;
    try (apply createTransaction_consistent; exact C);
    apply (ledger_untouched_consistent db); try exact C.
  - apply createUser_ledger.
  - apply initializeDefaultAdmin_ledger.
  - apply createCategory_ledger.
  - apply updateCategory_ledger.
  - apply deleteCategory_ledger.
  - apply createMenuItem_ledger.
  - apply updateMenuItem_ledger.
  - apply deleteMenuItem_ledger.
Qed.

Lemma serve_consistent (O : StorageOrder) (L : LocalTime)
  (calls : list (Env * Request)) (db : DB) :
  consistent db -> consistent (serve calls db).
Proof.
  unfold serve. revert db.
  induction calls as [|[env req] calls IH]; intros db C; simpl; [exact C|].
  apply IH, appRouter_consistent, C.
Qed.

(** Every store the server can reach from the empty one is consistent. *)
Lemma reachable_consistent (O : StorageOrder) (L : LocalTime) (db : DB) :
  reachable db -> consistent db.
Proof.
  intros [calls ->]. apply serve_consistent. split; constructor.
Qed.

(** *** The handler tests, replayed on the model *)

Example test_create_with_items :
  exists t db' r1 r2,
    createTransaction Sample.env Sample.cart Sample.store = (Ok t, db')
    /\ t_id t = 1
    /\ t_subtotal t = 5600 # 100
    /\ t_tax_amount t = 560 # 100
    /\ t_total_amount t = 6160 # 100
    /\ t_payment_received t = 7000 # 100
    /\ t_change_amount t = 840 # 100
    /\ transactionItemsTable db' = [r1; r2]
    /\ ti_total_price r1 = 3100
    /\ ti_total_price r2 = 2500.
Proof.
  eexists _, _, _, _. split; [vm_compute; reflexivity|].
  repeat split.
Qed.

Example test_daily_report :
  let report :=
    @getDailySalesReport stable_store utc 1754000000000 Sample.day_sales in
  (totalSales report == 7150 # 100)%Q
  /\ totalTransactions report = 2
  /\ (averageTransaction report == 3575 # 100)%Q
  /\ topSellingItems report
     = [ {| name := "Test Item 1"; quantity := 3; revenue := 4650 # 100 |};
         {| name := "Test Item 2"; quantity := 1; revenue := 2500 # 100 |} ].
Proof. vm_compute. repeat split. Qed.

Example test_report_of_the_day_before :
  @getDailySalesReport stable_store utc (1754000000000 - 86400000)
    Sample.day_sales
  = {| totalSales := 0%Q; totalTransactions := 0;
       averageTransaction := 0%Q; topSellingItems := [] |}.
Proof. reflexivity. Qed.

Example test_pagination :
  exists all first second,
    @getTransactions stable_store None None Sample.day_sales = Ok all
    /\ @getTransactions stable_store (Some 1) None Sample.day_sales = Ok first
    /\ @getTransactions stable_store (Some 1) (Some 1) Sample.day_sales
       = Ok second
    /\ List.length all = 2%nat
    /\ List.length first = 1%nat
    /\ List.length second = 1%nat
    /\ ids first <> ids second.
Proof.
  eexists _, _, _.
  split; [vm_compute; reflexivity|].
  split; [vm_compute; reflexivity|].
  split; [vm_compute; reflexivity|].
  repeat split. discriminate.
Qed.

(** A refused line undoes the header written before it: the rows are
    those of before, only the header counter has moved. *)
Example rollback_on_unknown_menu_item :
  exists db',
    createTransaction Sample.env Sample.unknown_item Sample.store
    = (Err PersistenceError, db')
    /\ same_rows db' Sample.store
    /\ seq_transactions db' = 2.
Proof.
  eexists. split; [vm_compute; reflexivity|]. repeat split.
Qed.

Example rollback_on_failed_commit :
  exists db',
    createTransaction Sample.env_commit_fails Sample.cart Sample.store
    = (Err PersistenceError, db')
    /\ same_rows db' Sample.store.
Proof.
  eexists. split; [vm_compute; reflexivity|]. repeat split.
Qed.

(* ================================================================== *)
(** ** Further properties *)
(* ================================================================== *)

(* ================================================================== *)
(** ** Further properties of the handlers *)
(* ================================================================== *)

(** *** Hydration *)

Lemma items_of_push (acc : list (Z * list TransactionItem)) (k id : Z)
  (v : TransactionItem) :
  items_of (push_item acc k v) id
  = if id =? k then items_of acc id ++ [v] else items_of acc id.
Proof.
  unfold items_of.
  induction acc as [|[k' vs] acc IH]; simpl.
  - rewrite (Z.eqb_sym k id). destruct (id =? k); reflexivity.
  - destruct (Z.eqb_spec k k') as [->|N]; simpl.
    + rewrite (Z.eqb_sym k' id). destruct (id =? k'); reflexivity.
    + destruct (Z.eqb_spec k' id) as [->|N'].
      * destruct (Z.eqb_spec id k); [congruence | reflexivity].
      * exact IH.
Qed.

(** Bucketing every item row and reading one bucket is filtering on the
    key. *)
Lemma items_of_buckets (items : list transactionItemsRow)
  (acc : list (Z * list TransactionItem)) (id : Z) :
  items_of
    (fold_left
       (fun acc item =>
          push_item acc (ti_transaction_id item) (to_TransactionItem item))
       items acc) id
  = items_of acc id
    ++ map to_TransactionItem
         (filter (fun i => ti_transaction_id i =? id) items).
Proof.
  revert acc. induction items as [|i items IH]; intros acc; simpl.
  - now rewrite app_nil_r.
  - rewrite IH, items_of_push, (Z.eqb_sym id).
    destruct (ti_transaction_id i =? id); simpl; [|reflexivity].
    now rewrite <- app_assoc.
Qed.

(** The same when only the items of the listed headers are bucketed. *)
Lemma items_of_selected_buckets (wanted : list Z)
  (items : list transactionItemsRow) (acc : list (Z * list TransactionItem))
  (id : Z) :
  In id wanted ->
  items_of
    (fold_left
       (fun acc item =>
          if existsb (Z.eqb (ti_transaction_id item)) wanted
          then push_item acc (ti_transaction_id item) (to_TransactionItem item)
          else acc)
       items acc) id
  = items_of acc id
    ++ map to_TransactionItem
         (filter (fun i => ti_transaction_id i =? id) items).
Proof.
  intros W. revert acc. induction items as [|i items IH]; intros acc; simpl.
  - now rewrite app_nil_r.
  - rewrite IH.
    destruct (Z.eqb_spec (ti_transaction_id i) id) as [E|N]; simpl.
    + assert (X : existsb (Z.eqb (ti_transaction_id i)) wanted = true).
      { apply existsb_exists. exists id. split; [exact W|].
        now apply Z.eqb_eq. }
      rewrite X, items_of_push, E, Z.eqb_refl. now rewrite <- app_assoc.
    + destruct (existsb _ wanted); [|reflexivity].
      rewrite items_of_push.
      destruct (Z.eqb_spec id (ti_transaction_id i)); [congruence|reflexivity].
Qed.

Lemma with_items_own_lines (db : DB) (rows : list (transactionsRow * string)) :
  Forall (lists_own_lines db) (with_items db rows).
Proof.
  unfold with_items. destruct rows as [|r0 rows0] eqn:R; [constructor|].
  rewrite <- R. clear R r0 rows0.
  apply Forall_forall. intros e I.
  apply in_map_iff in I as (r & <- & Ir).
  unfold lists_own_lines, hydrate, lines_of. simpl.
  rewrite items_of_selected_buckets.
  - reflexivity.
  - apply in_map_iff. exists r. auto.
Qed.

Lemma join_cashier_In (db : DB) (ts : list transactionsRow)
  (t : transactionsRow) (n : string) :
  In (t, n) (join_cashier db ts)
  <-> In t ts
      /\ exists u, In u (usersTable db)
                   /\ u_id u = tx_cashier_id t /\ u_full_name u = n.
Proof.
  unfold join_cashier. rewrite in_flat_map. split.
  - intros (t' & It & I). apply in_map_iff in I as (u & E & Iu).
    injection E as -> <-. apply filter_In in Iu as [Iu Hu].
    apply Z.eqb_eq in Hu. eauto 10.
  - intros (It & u & Iu & Hu & <-). exists t. split; [exact It|].
    apply in_map_iff. exists u. split; [reflexivity|].
    apply filter_In. split; [exact Iu | now apply Z.eqb_eq].
Qed.

Lemma getTransactions_source (O : StorageOrder) (limit offset : option Z)
  (db : DB) (page : list TransactionWithItems) :
  getTransactions limit offset db = Ok page ->
  exists rows,
    page
    = map (hydrate
             (fold_left
                (fun acc item =>
                   push_item acc (ti_transaction_id item)
                             (to_TransactionItem item))
                (if (0 <? List.length rows)%nat then transactionItemsTable db
                 else []) []))
          rows
    /\ forall r, In r rows -> In r (join_cashier db (transactionsTable db)).
Proof.
  assert (B : forall r, In r (baseQuery O db) ->
                        In r (join_cashier db (transactionsTable db))).
  { intros r I. eapply Permutation_in; [|exact I].
    apply Permutation_sym, order_by_desc_perm. }
  unfold getTransactions, sql_limit, sql_limit_offset.
  fold (baseQuery O db).
  destruct limit as [l|], offset as [o|]; simpl.
  - destruct ((l <? 0) || (o <? 0)); [discriminate|].
    intros E. injection E as <-. eexists. split; [reflexivity|].
    intros r I. apply B. apply In_firstn in I.
    rewrite <- (firstn_skipn (Z.to_nat o)). apply in_or_app. now right.
  - destruct (l <? 0); [discriminate|].
    intros E. injection E as <-. eexists. split; [reflexivity|].
    intros r I. apply B. now apply In_firstn in I.
  - intros E. injection E as <-. eexists. split; [reflexivity | exact B].
  - intros E. injection E as <-. eexists. split; [reflexivity | exact B].
Qed.

(** X1.  Every entry [getTransactions] returns, paginated or not,
    carries exactly the stored item lines of its own transaction, in
    table order and parsed like the header, and belongs to a stored
    header; [getTransactionById] on the entry's id answers with the same
    lines. *)
Theorem getTransactions_entries_hydrated
  (O : StorageOrder) (limit offset : option Z) (db : DB)
  (page : list TransactionWithItems) :
  getTransactions limit offset db = Ok page ->
  Forall
    (fun e =>
       lists_own_lines db e
       /\ (exists row, In row (transactionsTable db)
                       /\ tw_header e = to_Transaction row)
       /\ exists e', getTransactionById (t_id (tw_header e)) db = Some e'
                     /\ tw_items e' = tw_items e)
    page.
Proof.
  intros G. apply getTransactions_source in G as (rows & -> & Src).
  apply Forall_forall. intros e I.
  apply in_map_iff in I as ([t n] & <- & Ir).
  assert (NE : (0 <? List.length rows)%nat = true)
    by (destruct rows; [destruct Ir | reflexivity]).
  rewrite NE.
  assert (L : lists_own_lines db
                (hydrate
                   (fold_left
                      (fun acc item =>
                         push_item acc (ti_transaction_id item)
                                   (to_TransactionItem item))
                      (transactionItemsTable db) []) (t, n))).
  { unfold lists_own_lines, hydrate, lines_of. simpl.
    now rewrite items_of_buckets. }
  pose proof (Src _ Ir) as J. apply join_cashier_In in J as (It & u & Iu & Hu & _).
  split; [exact L|]. split; [exists t; split; [exact It | reflexivity]|].
  unfold getTransactionById. simpl.
  destruct (join_cashier db (filter (fun t0 => tx_id t0 =? tx_id t)
                                    (transactionsTable db)))
    as [|[t' n'] rest] eqn:J.
  - exfalso.
    assert (X : In (t, u_full_name u)
                   (join_cashier db (filter (fun t0 => tx_id t0 =? tx_id t)
                                            (transactionsTable db)))).
    { apply join_cashier_In. split; [|eauto].
      apply filter_In. split; [exact It | apply Z.eqb_refl]. }
    rewrite J in X. destruct X.
  - eexists. split; [reflexivity|]. simpl.
    rewrite L. reflexivity.
Qed.

Lemma getTransactions_entries_hydrated_witness :
  exists page e1 e2,
    @getTransactions stable_store None None Sample.day_sales = Ok page
    /\ page = [e1; e2]
    /\ List.length (tw_items e1) = 2%nat
    /\ List.length (tw_items e2) = 1%nat
    /\ lists_own_lines Sample.day_sales e1
    /\ lists_own_lines Sample.day_sales e2.
Proof.
  eexists _, _, _. split; [vm_compute; reflexivity|].
  split; [reflexivity|]. split; [reflexivity|]. split; [reflexivity|].
  pose proof (getTransactions_entries_hydrated stable_store None None
                Sample.day_sales _ eq_refl) as F.
  apply Forall_cons_iff in F as [(L1 & _) F].
  apply Forall_cons_iff in F as [(L2 & _) _].
  split; [exact L1 | exact L2].
Defined.

(** *** Pagination *)





(** *** Lookup and filtered listings *)

(** X4.  [getTransactionById] answers [null] for an id that no stored
    header has.  An answer it gives is a stored header with the asked
    id, named after a user whose id is the header's cashier, with all
    stored lines of that id.  It does answer when a header with that id
    has its cashier among the users. *)
Theorem getTransactionById_lookup (id : Z) (db : DB) :
  (has_id tx_id (transactionsTable db) id = false ->
   getTransactionById id db = None)
  /\ (forall e,
        getTransactionById id db = Some e ->
        t_id (tw_header e) = id
        /\ lists_own_lines db e
        /\ exists row u,
             In row (transactionsTable db)
             /\ tw_header e = to_Transaction row
             /\ In u (usersTable db)
             /\ u_id u = tx_cashier_id row
             /\ tw_cashier_full_name e = u_full_name u)
  /\ (forall row,
        In row (transactionsTable db) -> tx_id row = id ->
        has_id u_id (usersTable db) (tx_cashier_id row) = true ->
        exists e, getTransactionById id db = Some e).
Proof.
  unfold getTransactionById. split; [|split].
  - intros H.
    assert (F : filter (fun t => tx_id t =? id) (transactionsTable db) = []).
    { unfold has_id in H.
      induction (transactionsTable db) as [|t ts IH]; simpl in *; [reflexivity|].
      apply orb_false_iff in H as [H1 H2]. rewrite H1. now apply IH. }
    now rewrite F.
  - intros e.
    destruct (join_cashier db _) as [|[t n] rest] eqn:J; [discriminate|].
    intros E. injection E as <-. simpl.
    assert (I : In (t, n) (join_cashier db
                             (filter (fun t0 => tx_id t0 =? id)
                                     (transactionsTable db))))
      by (rewrite J; now left).
    apply join_cashier_In in I as (It & u & Iu & Hu & Hn).
    apply filter_In in It as [It Hid]. apply Z.eqb_eq in Hid.
    split; [exact Hid|]. split.
    + unfold lists_own_lines, lines_of. simpl. now rewrite Hid.
    + exists t, u. auto.
  - intros row I Hid Hc.
    apply has_id_In in Hc as (u & Iu & Hu).
    destruct (join_cashier db _) as [|[t n] rest] eqn:J; [|eauto].
    exfalso.
    assert (X : In (row, u_full_name u)
                   (join_cashier db (filter (fun t0 => tx_id t0 =? id)
                                            (transactionsTable db)))).
    { apply join_cashier_In. split; [|eauto].
      apply filter_In. split; [exact I | now apply Z.eqb_eq]. }
    rewrite J in X. destruct X.
Qed.

Lemma with_items_headers (db : DB) (rows : list (transactionsRow * string)) :
  map tw_header (with_items db rows)
  = map (fun r => to_Transaction (fst r)) rows.
Proof.
  unfold with_items. destruct rows as [|r rows]; [reflexivity|].
  rewrite map_map. reflexivity.
Qed.

Lemma sorted_headers (key : Transaction -> Z) (l : list TransactionWithItems) :
  StronglySorted (fun a b => key b <= key a) (map tw_header l) ->
  StronglySorted (fun a b => key (tw_header b) <= key (tw_header a)) l.
Proof.
  induction l as [|e l IH]; simpl; intros S; [constructor|].
  apply StronglySorted_inv in S as [S F].
  constructor; [now apply IH|].
  rewrite Forall_map in F. exact F.
Qed.

Lemma filter_none {A} (p : A -> bool) (l : list A) :
  (forall x, p x = false) -> filter p l = [].
Proof.
  intros H. induction l as [|x l IH]; simpl; [reflexivity|].
  now rewrite H.
Qed.

Lemma filter_none_in {A} (p : A -> bool) (l : list A) :
  (forall x, In x l -> p x = false) -> filter p l = [].
Proof.
  induction l as [|x l IH]; simpl; intros H; [reflexivity|].
  rewrite (H x) by now left. apply IH. intros y I. apply H. now right.
Qed.

(** What the two filtered listings have in common: the headers are the
    selected rows that have a cashier, newest transaction first, each
    entry with its own lines. *)
Lemma filtered_listing (O : StorageOrder) (db : DB)
  (sel : transactionsRow -> bool) :
  let result :=
    with_items db
      (order_by_desc (fun r => tx_transaction_date (fst r))
         (join_cashier db (filter sel (transactionsTable db)))) in
  Forall (lists_own_lines db) result
  /\ Permutation
       (map (fun r => to_Transaction (fst r))
            (join_cashier db (filter sel (transactionsTable db))))
       (map tw_header result)
  /\ StronglySorted
       (fun a b => t_transaction_date (tw_header b)
                   <= t_transaction_date (tw_header a))
       result
  /\ Forall (fun e => exists row,
                 In row (transactionsTable db) /\ sel row = true
                 /\ tw_header e = to_Transaction row)
            result.
Proof.
  intros result. subst result.
  set (rows := join_cashier db (filter sel (transactionsTable db))).
  set (sorted := order_by_desc (fun r => tx_transaction_date (fst r)) rows).
  assert (P : Permutation rows sorted) by apply order_by_desc_perm.
  split; [apply with_items_own_lines|]. split; [|split].
  - rewrite with_items_headers. now apply Permutation_map.
  - apply (sorted_headers t_transaction_date).
    rewrite with_items_headers.
    apply StronglySorted_map
      with (f := fun r => to_Transaction (fst r))
           (R := fun a b => t_transaction_date b <= t_transaction_date a).
    apply (order_by_desc_sorted _ (fun r => tx_transaction_date (fst r))).
  - apply Forall_forall. intros e I.
    assert (H : In (tw_header e) (map tw_header (with_items db sorted)))
      by now apply in_map.
    rewrite with_items_headers in H.
    apply in_map_iff in H as ([t n] & E & Ir).
    apply (Permutation_in _ (Permutation_sym P)) in Ir.
    apply join_cashier_In in Ir as (It & _).
    apply filter_In in It as [It Hs].
    exists t. auto.
Qed.

(** X5.  [getTransactionsByDateRange] returns the stored transactions
    (those with a cashier) whose [transaction_date] lies between the two
    bounds, both included, and only those, newest first, each with its
    own lines; it returns nothing when the end precedes the start. *)
Theorem getTransactionsByDateRange_inclusive
  (O : StorageOrder) (startDate endDate : Z) (db : DB) :
  let result := getTransactionsByDateRange startDate endDate db in
  Forall (fun e =>
            startDate <= t_transaction_date (tw_header e) <= endDate
            /\ lists_own_lines db e)
         result
  /\ Permutation
       (map (fun r => to_Transaction (fst r))
            (join_cashier db
               (filter (fun t => (startDate <=? tx_transaction_date t)
                                 && (tx_transaction_date t <=? endDate))
                       (transactionsTable db))))
       (map tw_header result)
  /\ StronglySorted
       (fun a b => t_transaction_date (tw_header b)
                   <= t_transaction_date (tw_header a))
       result
  /\ (endDate < startDate -> result = []).
Proof.
  intros result. subst result. unfold getTransactionsByDateRange.
  destruct (filtered_listing O db (in_range startDate endDate))
    as (L & P & S & F).
  split; [|split; [exact P | split; [exact S|]]].
  - rewrite Forall_forall in *. intros e I. split; [|now apply L].
    destruct (F e I) as (row & _ & Hr & ->). simpl.
    unfold in_range in Hr. apply andb_true_iff in Hr as [H1 H2].
    apply Z.leb_le in H1. apply Z.leb_le in H2. lia.
  - intros Lt.
    assert (E : filter (in_range startDate endDate) (transactionsTable db) = []).
    { apply filter_none. intros t. unfold in_range.
      destruct (Z.leb_spec startDate (tx_transaction_date t));
        destruct (Z.leb_spec (tx_transaction_date t) endDate);
        try reflexivity. exfalso. lia. }
    rewrite E. simpl.
    pose proof (order_by_desc_perm (transactionsRow * string)
                  (fun r => tx_transaction_date (fst r)) []) as P0.
    apply Permutation_nil in P0. now rewrite P0.
Qed.

(** X6.  [getTransactionsByCashier] returns the stored transactions of
    that cashier and no other, newest first, each with its own lines;
    for an id no transaction carries it returns nothing. *)
Theorem getTransactionsByCashier_only (O : StorageOrder) (cashierId : Z)
  (db : DB) :
  let result := getTransactionsByCashier cashierId db in
  Forall (fun e => t_cashier_id (tw_header e) = cashierId
                   /\ lists_own_lines db e)
         result
  /\ Permutation
       (map (fun r => to_Transaction (fst r))
            (join_cashier db
               (filter (fun t => tx_cashier_id t =? cashierId)
                       (transactionsTable db))))
       (map tw_header result)
  /\ StronglySorted
       (fun a b => t_transaction_date (tw_header b)
                   <= t_transaction_date (tw_header a))
       result
  /\ (Forall (fun t => tx_cashier_id t <> cashierId) (transactionsTable db) ->
      result = []).
Proof.
  intros result. subst result. unfold getTransactionsByCashier.
  destruct (filtered_listing O db (fun t => tx_cashier_id t =? cashierId))
    as (L & P & S & F).
  split; [|split; [exact P | split; [exact S|]]].
  - rewrite Forall_forall in *. intros e I. split; [|now apply L].
    destruct (F e I) as (row & _ & Hr & ->). simpl.
    now apply Z.eqb_eq in Hr.
  - intros N.
    assert (E : filter (fun t => tx_cashier_id t =? cashierId)
                       (transactionsTable db) = []).
    { clear - N. induction N as [|t ts Ht _ IH]; simpl; [reflexivity|].
      destruct (Z.eqb_spec (tx_cashier_id t) cashierId); [contradiction|].
      exact IH. }
    rewrite E. simpl.
    pose proof (order_by_desc_perm (transactionsRow * string)
                  (fun r => tx_transaction_date (fst r)) []) as P0.
    apply Permutation_nil in P0. now rewrite P0.
Qed.

(** *** Creation *)


Lemma or_null_not_empty (o : option string) : or_null o <> Some ""%string.
Proof. destruct o as [[|c s]|]; simpl; discriminate. Qed.

Lemma or_null_keeps (s : string) : s <> ""%string -> or_null (Some s) = Some s.
Proof. destruct s; [congruence | reflexivity]. Qed.

(** X8.  A created transaction never carries an empty string as
    customer name, customer phone or note, on the header or on a line
    it writes: the empty string is stored as [null], like an absent
    value, while a non-empty text is stored as given. *)
Theorem createTransaction_empty_text_is_null
  (env : Env) (input : CreateTransactionInput) (db db' : DB) (t : Transaction) :
  createTransaction env input db = (Ok t, db') ->
  t_customer_name t <> Some ""%string
  /\ t_customer_phone t <> Some ""%string
  /\ t_notes t <> Some ""%string
  /\ (exists rows,
        transactionItemsTable db' = transactionItemsTable db ++ rows
        /\ Forall (fun r => ti_notes r <> Some ""%string) rows)
  /\ (forall s, in_customer_name input = Some s -> s <> ""%string ->
                t_customer_name t = Some s)
  /\ (in_customer_name input = Some ""%string -> t_customer_name t = None).
Proof.
  intros E.
  destruct (createTransaction_Ok _ _ _ _ _ E)
    as (row & rows & SH & L & -> & _ & _ & _ & T & I & _).
  destruct SH as (Hid & _ & _ & Hn & Hp & _ & _ & _ & _ & _ & _ & _ & Hno & _).
  simpl. rewrite Hn, Hp, Hno.
  split; [apply or_null_not_empty|]. split; [apply or_null_not_empty|].
  split; [apply or_null_not_empty|]. split; [|split].
  - exists rows. split; [exact I|].
    clear - L. induction L as [|i r items rows (_ & _ & _ & _ & _ & N) _ IH];
      constructor; [rewrite N; apply or_null_not_empty | exact IH].
  - intros s -> N. now apply or_null_keeps.
  - intros ->. reflexivity.
Qed.

Lemma createTransaction_empty_text_is_null_witness :
  exists t db',
    createTransaction Sample.env Fixture.blank_texts Sample.store = (Ok t, db')
    /\ t_customer_name t = None
    /\ t_notes t <> Some ""%string.
Proof.
  destruct (createTransaction Sample.env Fixture.blank_texts Sample.store)
    as [[t|e] db'] eqn:E; [|vm_compute in E; discriminate E].
  exists t, db'. split; [reflexivity|].
  destruct (createTransaction_empty_text_is_null _ _ _ _ _ E)
    as (_ & _ & N & _ & _ & K).
  split; [apply K; reflexivity | exact N].
Defined.

(* ================================================================== *)
(** ** Accounts (handlers/auth.ts) *)
(* ================================================================== *)

Lemma by_username_In (n : string) (db : DB) (u : usersRow) :
  In u (by_username n db) <-> In u (usersTable db) /\ u_username u = n.
Proof.
  unfold by_username. rewrite filter_In, String.eqb_eq. reflexivity.
Qed.

Lemma by_username_nil (n : string) (db : DB) :
  by_username n db = [] <->
  Forall (fun u => u_username u <> n) (usersTable db).
Proof.
  unfold by_username. induction (usersTable db) as [|u us IH]; simpl.
  - split; [constructor | reflexivity].
  - destruct (String.eqb_spec (u_username u) n) as [E|N].
    + split; [discriminate|]. intros F. inversion F; contradiction.
    + rewrite IH. split; [now constructor | intros F; now inversion F].
Qed.

(** With distinct usernames, the first row found under a name is the
    only one. *)
Lemma by_username_unique (db : DB) (u : usersRow) :
  NoDup (map u_username (usersTable db)) ->
  In u (usersTable db) ->
  by_username (u_username u) db = [u].
Proof.
  unfold by_username. induction (usersTable db) as [|v us IH]; simpl.
  - intros _ [].
  - intros N I. apply NoDup_cons_iff in N as [Nv N].
    destruct I as [->|I].
    + rewrite String.eqb_refl. f_equal.
      apply filter_none_in. intros w Iw.
      destruct (String.eqb_spec (u_username w) (u_username u)) as [E|]; auto.
      exfalso. apply Nv. rewrite <- E. now apply in_map.
    + destruct (String.eqb_spec (u_username v) (u_username u)) as [E|_].
      * exfalso. apply Nv. rewrite E. now apply in_map.
      * now apply IH.
Qed.

(** X9.  [loginUser] succeeds only for a stored user whose name and
    password are the ones given and who is active, and then returns that
    user without the password; a name no user has is refused.  With
    usernames distinct, as the table requires, the converse holds: the
    right password of an active user always logs in, a wrong password or
    an inactive account never does. *)
Theorem loginUser_credentials (env : Env) (input : LoginInput) (db : DB) :
  (forall r,
     loginUser env input db = Ok r ->
     exists u,
       In u (usersTable db)
       /\ u_username u = li_username input
       /\ u_password u = li_password input
       /\ u_is_active u = true
       /\ lr_user r = userWithoutPassword u
       /\ lr_token r = (u_id u, env_now env))
  /\ (Forall (fun u => u_username u <> li_username input) (usersTable db) ->
      loginUser env input db = Err (AppError "Invalid username or password"))
  /\ (NoDup (map u_username (usersTable db)) ->
      forall u,
        In u (usersTable db) -> u_username u = li_username input ->
        loginUser env input db
        = if negb (u_is_active u)
          then Err (AppError "User account is inactive")
          else if String.eqb (u_password u) (li_password input)
               then Ok {| lr_user := userWithoutPassword u;
                          lr_token := (u_id u, env_now env) |}
               else Err (AppError "Invalid username or password")).
Proof.
  unfold loginUser. split; [|split].
  - intros r.
    destruct (by_username (li_username input) db) as [|u us] eqn:B;
      [discriminate|].
    assert (I : In u (by_username (li_username input) db))
      by (rewrite B; now left).
    apply by_username_In in I as [I Hn].
    destruct (u_is_active u) eqn:A; simpl; [|discriminate].
    destruct (String.eqb_spec (u_password u) (li_password input)) as [P|];
      simpl; [|discriminate].
    intros E. injection E as <-. exists u. simpl. auto 10.
  - intros F. apply by_username_nil in F. now rewrite F.
  - intros N u I Hn. rewrite <- Hn, (by_username_unique db u N I).
    destruct (u_is_active u); simpl; [|reflexivity].
    destruct (String.eqb (u_password u) (li_password input)); reflexivity.
Qed.

(** X10.  [createUser] refuses a username that is already taken and
    then writes nothing; otherwise, unless the store faults, it appends
    one active user with the next id, the given role and full name, and
    leaves the existing users as they were. *)
Theorem createUser_unique_username (env : Env) (input : CreateUserInput)
  (db : DB) :
  (by_username (cu_username input) db <> [] ->
   createUser env input db = (Err (AppError "Username already exists"), db))
  /\ (by_username (cu_username input) db = [] ->
      env_fault env 0%nat = false ->
      exists row db',
        createUser env input db = (Ok row, db')
        /\ usersTable db' = usersTable db ++ [row]
        /\ u_id row = seq_users db
        /\ u_username row = cu_username input
        /\ u_role row = cu_role input
        /\ u_full_name row = cu_full_name input
        /\ u_is_active row = true
        /\ ledger_untouched db' db).
Proof.
  unfold createUser, insert_user. split.
  - intros N. destruct (by_username (cu_username input) db); [contradiction|].
    reflexivity.
  - intros E F. rewrite E, F.
    eexists _, _. split; [reflexivity|]. simpl. repeat split.
Qed.

(** X11.  Registration and login compose: after [createUser] succeeds,
    [loginUser] with the same username and password succeeds on the new
    store and returns the created user, with its id and role; with any
    other password it is refused. *)
Theorem createUser_then_loginUser (env env' : Env) (input : CreateUserInput)
  (db db' : DB) (row : usersRow) :
  createUser env input db = (Ok row, db') ->
  loginUser env' {| li_username := cu_username input;
                    li_password := cu_password input |} db'
  = Ok {| lr_user := userWithoutPassword row;
          lr_token := (u_id row, env_now env') |}
  /\ up_role (userWithoutPassword row) = cu_role input
  /\ forall other,
       other <> cu_password input ->
       loginUser env' {| li_username := cu_username input;
                         li_password := other |} db'
       = Err (AppError "Invalid username or password").
Proof.
  unfold createUser, insert_user.
  destruct (by_username (cu_username input) db) eqn:B; [|discriminate].
  destruct (env_fault env 0%nat); [discriminate|].
  intros E. injection E as <- <-.
  assert (L : by_username (cu_username input)
                (with_users db
                   (usersTable db ++
                    [{| u_id := seq_users db; u_username := cu_username input;
                        u_password := cu_password input;
                        u_role := cu_role input;
                        u_full_name := cu_full_name input;
                        u_is_active := true; u_created_at := env_now env;
                        u_updated_at := None |}])
                   (seq_users db + 1))
              = [{| u_id := seq_users db; u_username := cu_username input;
                    u_password := cu_password input; u_role := cu_role input;
                    u_full_name := cu_full_name input; u_is_active := true;
                    u_created_at := env_now env; u_updated_at := None |}]).
  { unfold by_username in *. simpl. rewrite filter_app, B. simpl.
    now rewrite String.eqb_refl. }
  unfold loginUser. simpl li_username. rewrite L. simpl.
  rewrite String.eqb_refl. split; [reflexivity|]. split; [reflexivity|].
  intros other N.
  destruct (String.eqb_spec (cu_password input) other); [congruence|].
  reflexivity.
Qed.

Lemma createUser_then_loginUser_witness :
  exists row db',
    createUser Sample.env Fixture.new_cashier Sample.store = (Ok row, db')
    /\ loginUser Sample.env {| li_username := "budi";
                               li_password := "rahasia1" |} db'
       = Ok {| lr_user := userWithoutPassword row;
               lr_token := (u_id row, env_now Sample.env) |}.
Proof.
  destruct (createUser Sample.env Fixture.new_cashier Sample.store)
    as [[row|e] db'] eqn:E; [|vm_compute in E; discriminate E].
  exists row, db'. split; [reflexivity|].
  exact (proj1 (createUser_then_loginUser _ Sample.env _ _ _ _ E)).
Defined.

Lemma initializeDefaultAdmin_present (env : Env) (db : DB) :
  by_username "admin" db <> [] ->
  initializeDefaultAdmin env db = (Ok None, db).
Proof.
  unfold initializeDefaultAdmin. intros N.
  destruct (by_username "admin" db); [congruence | reflexivity].
Qed.

(** X12.  Seeding the default administrator is idempotent: once a call
    of [initializeDefaultAdmin] has succeeded, a user named [admin]
    exists, and every later call returns [null] and writes nothing; a
    call that creates the account gives it the role [ADMIN]. *)
Theorem initializeDefaultAdmin_idempotent (env : Env) (db db' : DB)
  (r : option usersRow) :
  initializeDefaultAdmin env db = (Ok r, db') ->
  by_username "admin" db' <> []
  /\ (forall env', initializeDefaultAdmin env' db' = (Ok None, db'))
  /\ match r with
     | None => db' = db
     | Some row =>
         usersTable db' = usersTable db ++ [row]
         /\ u_username row = "admin"%string
         /\ u_role row = ADMIN
         /\ u_is_active row = true
     end.
Proof.
  unfold initializeDefaultAdmin, bind, ret, insert_user.
  destruct (by_username "admin" db) as [|a rest] eqn:B.
  - destruct (env_fault env 0%nat); [discriminate|].
    intros E. injection E as <- <-.
    assert (N : by_username "admin"
                  (with_users db
                     (usersTable db ++
                      [{| u_id := seq_users db; u_username := "admin";
                          u_password := "admin123"; u_role := ADMIN;
                          u_full_name := "System Administrator";
                          u_is_active := true; u_created_at := env_now env;
                          u_updated_at := None |}])
                     (seq_users db + 1)) <> []).
    { unfold by_username in *. simpl. rewrite filter_app, B. simpl.
      discriminate. }
    split; [exact N|]. split; [|simpl; auto].
    intros env'. now apply initializeDefaultAdmin_present.
  - intros E. injection E as <- <-.
    assert (N : by_username "admin" db <> []) by (rewrite B; discriminate).
    split; [exact N|]. split; [|reflexivity].
    intros env'. now apply initializeDefaultAdmin_present.
Qed.

Lemma initializeDefaultAdmin_idempotent_witness :
  exists row db',
    initializeDefaultAdmin Sample.env emptyDB = (Ok (Some row), db')
    /\ u_role row = ADMIN
    /\ initializeDefaultAdmin Sample.env db' = (Ok None, db').
Proof.
  destruct (initializeDefaultAdmin Sample.env emptyDB)
    as [[[row|]|e] db'] eqn:E; try (vm_compute in E; discriminate E).
  exists row, db'. split; [reflexivity|].
  destruct (initializeDefaultAdmin_idempotent _ _ _ _ E) as (_ & I & _ & _ & R & _).
  split; [exact R | apply I].
Defined.

(* ================================================================== *)
(** ** Catalog (handlers/categories.ts, handlers/menu_items.ts) *)
(* ================================================================== *)


Lemma with_menu_items_same (db : DB) :
  with_menu_items db (menuItemsTable db) (seq_menu_items db) = db.
Proof. destruct db; reflexivity. Qed.

(** An update keyed on an id that no row has changes nothing. *)
Lemma update_miss {R} (id_of : R -> Z) (k : Z) (f : R -> R) (l : list R) :
  has_id id_of l k = false ->
  map (fun r => if id_of r =? k then f r else r) l = l
  /\ filter (fun r => id_of r =? k) l = [].
Proof.
  unfold has_id. induction l as [|r l IH]; simpl; [auto|].
  intros H. apply orb_false_iff in H as [H1 H2]. rewrite H1.
  destruct (IH H2) as [-> ->]. auto.
Qed.

(** An update that keeps the key keeps the keys of the table, in
    order, and every row with another key. *)
Lemma update_keys {R} (id_of : R -> Z) (k : Z) (f : R -> R) (l : list R) :
  (forall r, id_of (f r) = id_of r) ->
  map id_of (map (fun r => if id_of r =? k then f r else r) l) = map id_of l.
Proof.
  intros H. rewrite map_map. apply map_ext. intros r.
  destruct (id_of r =? k); auto.
Qed.

Lemma update_others {R} (id_of : R -> Z) (k : Z) (f : R -> R) (l : list R)
  (r : R) :
  In r l -> id_of r <> k ->
  In r (map (fun r => if id_of r =? k then f r else r) l).
Proof.
  intros I N. apply in_map_iff. exists r. split; [|exact I].
  destruct (Z.eqb_spec (id_of r) k); [contradiction | reflexivity].
Qed.

Lemma update_hit_first {R} (id_of : R -> Z) (k : Z) (f : R -> R) (l : list R) :
  (forall r, id_of (f r) = id_of r) ->
  hd_error (filter (fun r => id_of r =? k)
                   (map (fun r => if id_of r =? k then f r else r) l))
  = option_map f (hd_error (filter (fun r => id_of r =? k) l)).
Proof.
  intros H. induction l as [|r l IH]; simpl; [reflexivity|].
  destruct (Z.eqb_spec (id_of r) k) as [E|N].
  - rewrite H. destruct (Z.eqb_spec (id_of r) k); [reflexivity | contradiction].
  - destruct (Z.eqb_spec (id_of r) k); [contradiction | exact IH].
Qed.

Lemma hits_nonempty {R} (id_of : R -> Z) (k : Z) (l : list R) :
  (0 <? List.length (filter (fun r => (id_of r =? k)%Z) l))%nat
  = has_id id_of l k.
Proof.
  unfold has_id. induction l as [|r l IH]; simpl; [reflexivity|].
  destruct (id_of r =? k); simpl; [reflexivity | exact IH].
Qed.

(** X13.  [deleteCategory] is a soft delete.  Unless the store faults it
    answers whether a category with that id exists; it removes no row
    and reorders none, leaves every other category and every menu item
    as it was, and afterwards the category is absent from
    [getCategories] while [getCategoryById] still returns it, inactive,
    with its name and description. *)
Theorem deleteCategory_soft (env : Env) (id : Z) (db : DB) :
  env_fault env 0%nat = false ->
  exists db',
    deleteCategory env id db = (Ok (has_id c_id (categoriesTable db) id), db')
    /\ map c_id (categoriesTable db') = map c_id (categoriesTable db)
    /\ Forall (fun c => c_id c <> id) (getCategories db')
    /\ (forall c, In c (categoriesTable db) -> c_id c <> id ->
                  In c (categoriesTable db'))
    /\ (forall c, getCategoryById id db = Some c ->
          exists c', getCategoryById id db' = Some c'
                     /\ c_is_active c' = false
                     /\ c_id c' = id
                     /\ c_name c' = c_name c
                     /\ c_description c' = c_description c
                     /\ c_created_at c' = c_created_at c)
    /\ menuItemsTable db' = menuItemsTable db
    /\ usersTable db' = usersTable db
    /\ ledger_untouched db' db.
Proof.
  intros F. unfold deleteCategory, bind, ret, update_categories.
  rewrite F. eexists. split.
  { rewrite length_map, hits_nonempty. reflexivity. }
  set (off := fun c => {| c_id := c_id c; c_name := c_name c;
                          c_description := c_description c;
                          c_is_active := false;
                          c_created_at := c_created_at c;
                          c_updated_at := Some (env_now env) |}).
  simpl. split; [now apply update_keys|]. split; [|split; [|split]].
  - unfold getCategories. simpl. apply Forall_forall. intros c I.
    apply filter_In in I as [I A]. apply in_map_iff in I as (c0 & E & _).
    destruct (Z.eqb_spec (c_id c0) id) as [_|N]; subst c.
    + simpl in A. discriminate.
    + exact N.
  - intros c I N. now apply update_others.
  - unfold getCategoryById. simpl. intros c Hc.
    rewrite (update_hit_first c_id id off) by reflexivity.
    rewrite Hc. simpl. eexists. split; [reflexivity|]. simpl.
    repeat split.
    destruct (filter (fun c0 => c_id c0 =? id) (categoriesTable db))
      as [|c0 l] eqn:E; [discriminate|].
    injection Hc as <-.
    assert (I : In c0 (filter (fun c0 => c_id c0 =? id) (categoriesTable db)))
      by (rewrite E; now left).
    apply filter_In in I as [_ I]. now apply Z.eqb_eq in I.
  - repeat split.
Qed.

Lemma deleteCategory_soft_witness :
  exists db',
    deleteCategory Sample.env 1 Sample.store = (Ok true, db')
    /\ getCategories db' = []
    /\ exists c, getCategoryById 1 db' = Some c /\ c_is_active c = false.
Proof.
  destruct (deleteCategory_soft Sample.env 1 Sample.store eq_refl)
    as (db' & E & _ & G & _ & K & _).
  exists db'. split; [exact E|]. split.
  - vm_compute in E. injection E as <-. reflexivity.
  - destruct (K Sample.category eq_refl) as (c' & Hc & A & _).
    exists c'. auto.
Defined.



(** X15.  A category created by [createCategory] can be read back:
    unless the store faults the call succeeds, the category is active,
    has the given name and the next id, and on a store whose category
    ids lie below the sequence [getCategoryById] returns it and
    [getCategories] lists it; the older categories are unchanged. *)
Theorem createCategory_then_read (env : Env) (input : CreateCategoryInput)
  (db : DB) :
  env_fault env 0%nat = false ->
  Forall (fun c => c_id c < seq_categories db) (categoriesTable db) ->
  exists row db',
    createCategory env input db = (Ok row, db')
    /\ c_id row = seq_categories db
    /\ c_name row = cc_name input
    /\ c_description row = or_null (cc_description input)
    /\ c_is_active row = true
    /\ categoriesTable db' = categoriesTable db ++ [row]
    /\ getCategoryById (c_id row) db' = Some row
    /\ In row (getCategories db')
    /\ Forall (fun c => c_id c < seq_categories db') (categoriesTable db').
Proof.
  intros F K. unfold createCategory. rewrite F.
  eexists _, _. split; [reflexivity|]. simpl.
  repeat (split; [reflexivity|]).
  split; [|split].
  - unfold getCategoryById. simpl. rewrite filter_app. simpl.
    rewrite Z.eqb_refl.
    assert (E : filter (fun c => c_id c =? seq_categories db)
                       (categoriesTable db) = []).
    { apply filter_none_in. intros c I. rewrite Forall_forall in K.
      specialize (K c I). destruct (Z.eqb_spec (c_id c) (seq_categories db));
        [lia | reflexivity]. }
    now rewrite E.
  - unfold getCategories. simpl. apply filter_In. split; [|reflexivity].
    apply in_or_app. right. now left.
  - apply Forall_app. split.
    + eapply Forall_impl; [|exact K]. simpl. intros; lia.
    + constructor; [simpl; lia | constructor].
Qed.

Lemma createCategory_then_read_witness :
  exists row db',
    createCategory Sample.env Fixture.new_category Sample.store = (Ok row, db')
    /\ c_id row = 2
    /\ getCategoryById 2 db' = Some row.
Proof.
  assert (K : Forall (fun c => c_id c < seq_categories Sample.store)
                     (categoriesTable Sample.store)).
  { constructor; [reflexivity | constructor]. }
  destruct (createCategory_then_read Sample.env Fixture.new_category
              Sample.store eq_refl K)
    as (row & db' & E & I & _ & _ & _ & _ & G & _).
  exists row, db'. split; [exact E|]. split; [exact I|].
  simpl in I. rewrite <- I. exact G.
Defined.

Lemma active_category_nil (id : Z) (db : DB) :
  active_category id db = [] <->
  Forall (fun c => c_id c = id -> c_is_active c = false) (categoriesTable db).
Proof.
  unfold active_category. induction (categoriesTable db) as [|c cs IH]; simpl.
  - split; [constructor | reflexivity].
  - destruct (Z.eqb_spec (c_id c) id) as [E|N]; simpl.
    + destruct (c_is_active c) eqn:A.
      * split; [discriminate|]. intros F. inversion F as [|? ? H _]; subst.
        specialize (H eq_refl). congruence.
      * rewrite IH. split; [intros F; constructor; auto | intros F; now inversion F].
    + rewrite IH. split.
      * intros F. constructor; [intros; contradiction | exact F].
      * intros F. now inversion F.
Qed.

Lemma createMenuItem_needs_active_category (env : Env)
  (input : CreateMenuItemInput) (db : DB) :
  active_category (cm_category_id input) db = [] ->
  createMenuItem env input db
  = (Err (AppError "Category not found or inactive"), db).
Proof. unfold createMenuItem. now intros ->. Qed.

Lemma deleteCategory_deactivates (env : Env) (id : Z) (db db' : DB) (b : bool) :
  deleteCategory env id db = (Ok b, db') -> active_category id db' = [].
Proof.
  unfold deleteCategory, bind, ret, update_categories.
  destruct (env_fault env 0%nat); [discriminate|].
  intros E. injection E as _ <-. apply active_category_nil. simpl.
  apply Forall_forall. intros c I Hc.
  apply in_map_iff in I as (c0 & E & _).
  destruct (Z.eqb_spec (c_id c0) id) as [_|N]; subst c; [reflexivity|].
  contradiction.
Qed.

(** X16.  A menu item can only be created in, or moved to, a category
    that exists and is active: otherwise [createMenuItem] and
    [updateMenuItem] fail with "Category not found or inactive" and
    write nothing.  In particular, once [deleteCategory] has succeeded
    for an id, no menu item can be created in that category. *)
Theorem menu_item_needs_active_category (env : Env) (db : DB) :
  (forall input,
     active_category (cm_category_id input) db = [] ->
     createMenuItem env input db
     = (Err (AppError "Category not found or inactive"), db))
  /\ (forall input c,
        um_category_id input = Some c ->
        active_category c db = [] ->
        has_id m_id (menuItemsTable db) (um_id input) = true ->
        updateMenuItem env input db
        = (Err (AppError "Category not found or inactive"), db))
  /\ (forall env0 db0 id b input,
        deleteCategory env0 id db0 = (Ok b, db) ->
        cm_category_id input = id ->
        createMenuItem env input db
        = (Err (AppError "Category not found or inactive"), db)).
Proof.
  split; [|split].
  - intros input. apply createMenuItem_needs_active_category.
  - intros input c Hc A H. unfold updateMenuItem.
    rewrite <- (hits_nonempty m_id) in H.
    destruct (filter (fun m => m_id m =? um_id input) (menuItemsTable db));
      [discriminate|].
    now rewrite Hc, A.
  - intros env0 db0 id b input D <-.
    apply createMenuItem_needs_active_category.
    eapply deleteCategory_deactivates; eauto.
Qed.

(** X17.  A menu item created by [createMenuItem] in an active category,
    with a price in whole hundredths that fits the column, can be read
    back: the call succeeds unless the store faults, the item is
    available, carries the given name, category and exactly the given
    price and the next id, and on a store whose menu ids lie below the
    sequence [getMenuItemById] returns it and [getMenuItemsByCategory]
    lists it. *)
Theorem createMenuItem_then_read (env : Env) (input : CreateMenuItemInput)
  (db : DB) (cents : Z) :
  env_fault env 0%nat = false ->
  active_category (cm_category_id input) db <> [] ->
  is_cents (cm_price input) cents ->
  Z.abs cents < 10 ^ 10 ->
  Forall (fun m => m_id m < seq_menu_items db) (menuItemsTable db) ->
  exists item db',
    createMenuItem env input db = (Ok item, db')
    /\ m_id (mi_row item) = seq_menu_items db
    /\ m_name (mi_row item) = cm_name input
    /\ m_category_id (mi_row item) = cm_category_id input
    /\ m_is_available (mi_row item) = true
    /\ m_price (mi_row item) = cents
    /\ (mi_price item == cm_price input)%Q
    /\ menuItemsTable db' = menuItemsTable db ++ [mi_row item]
    /\ getMenuItemById (seq_menu_items db) db' = Some item
    /\ In item (getMenuItemsByCategory (cm_category_id input) db').
Proof.
  intros F A C B K. unfold createMenuItem.
  destruct (active_category (cm_category_id input) db); [contradiction|].
  rewrite F, (numeric_10_2_cents _ _ C B).
  eexists _, _. split; [reflexivity|]. simpl.
  repeat (split; [reflexivity|]).
  split; [now apply parseFloat_cents|]. split; [reflexivity|]. split.
  - unfold getMenuItemById. simpl. rewrite filter_app. simpl.
    rewrite Z.eqb_refl.
    assert (E : filter (fun m => m_id m =? seq_menu_items db)
                       (menuItemsTable db) = []).
    { apply filter_none_in. intros m I. rewrite Forall_forall in K.
      specialize (K m I).
      destruct (Z.eqb_spec (m_id m) (seq_menu_items db)); [lia | reflexivity]. }
    now rewrite E.
  - unfold getMenuItemsByCategory. simpl. rewrite filter_app, map_app.
    apply in_or_app. right. simpl. rewrite Z.eqb_refl. simpl. now left.
Qed.

Lemma createMenuItem_then_read_witness :
  exists item db',
    createMenuItem Sample.env Fixture.new_menu_item Sample.store = (Ok item, db')
    /\ m_id (mi_row item) = 3
    /\ (mi_price item == 1825 # 100)%Q
    /\ getMenuItemById 3 db' = Some item.
Proof.
  assert (K : Forall (fun m => m_id m < seq_menu_items Sample.store)
                     (menuItemsTable Sample.store)).
  { repeat constructor. }
  destruct (createMenuItem_then_read Sample.env Fixture.new_menu_item
              Sample.store 1825 eq_refl) as (item & db' & E & I & _ & _ & _ & _ & P & _ & G & _).
  - discriminate.
  - reflexivity.
  - reflexivity.
  - exact K.
  - exists item, db'. auto.
Defined.

Lemma update_menu_items_total (k : Z) (g : menuItemsRow -> menuItemsRow)
  (db : DB) :
  update_menu_items false k (fun m => Some (g m)) db
  = (Ok (map g (filter (fun m => m_id m =? k) (menuItemsTable db))),
     with_menu_items db
       (map (fun m => if m_id m =? k then g m else m) (menuItemsTable db))
       (seq_menu_items db)).
Proof.
  unfold update_menu_items.
  assert (A : forallb (fun m : menuItemsRow => true)
                      (filter (fun m => m_id m =? k) (menuItemsTable db)) = true).
  { apply forallb_forall. reflexivity. }
  simpl. rewrite A. reflexivity.
Qed.

(** X18.  [deleteMenuItem] is a soft delete.  For an id that no menu
    item has it fails with "Menu item not found" and writes nothing.
    Otherwise, unless the store faults, it returns [true]; no row is
    removed, so every id that item lines may refer to is still there;
    the other items are untouched; the item is no longer listed by
    [getMenuItems], yet [getMenuItemById] still returns it, unavailable,
    with its name, price and category. *)
Theorem deleteMenuItem_soft (env : Env) (id : Z) (db : DB) :
  (has_id m_id (menuItemsTable db) id = false ->
   deleteMenuItem env id db = (Err (AppError "Menu item not found"), db))
  /\ (has_id m_id (menuItemsTable db) id = true ->
      env_fault env 0%nat = false ->
      exists db',
        deleteMenuItem env id db = (Ok true, db')
        /\ map m_id (menuItemsTable db') = map m_id (menuItemsTable db)
        /\ Forall (fun e => m_id (mi_row (fst e)) <> id) (getMenuItems db')
        /\ (forall m, In m (menuItemsTable db) -> m_id m <> id ->
                      In m (menuItemsTable db'))
        /\ (forall old, getMenuItemById id db = Some old ->
              exists now',
                getMenuItemById id db' = Some now'
                /\ m_is_available (mi_row now') = false
                /\ m_id (mi_row now') = id
                /\ m_name (mi_row now') = m_name (mi_row old)
                /\ m_category_id (mi_row now') = m_category_id (mi_row old)
                /\ mi_price now' = mi_price old)
        /\ categoriesTable db' = categoriesTable db
        /\ ledger_untouched db' db).
Proof.
  unfold deleteMenuItem. split.
  - intros M. destruct (update_miss m_id id (fun m => m) _ M) as [_ ->].
    reflexivity.
  - intros H F. pose proof H as H'.
    rewrite <- (hits_nonempty m_id) in H'.
    destruct (filter (fun m => m_id m =? id) (menuItemsTable db))
      as [|m0 l] eqn:E; [discriminate|].
    unfold bind, ret. rewrite F.
    set (off := fun m => {| m_id := m_id m; m_name := m_name m;
                            m_description := m_description m;
                            m_price := m_price m;
                            m_category_id := m_category_id m;
                            m_is_available := false;
                            m_image_url := m_image_url m;
                            m_created_at := m_created_at m;
                            m_updated_at := Some (env_now env) |}).
    rewrite (update_menu_items_total id off).
    eexists. split; [reflexivity|]. simpl.
    split; [now apply update_keys|]. split; [|split; [|split]].
    + unfold getMenuItems. simpl. apply Forall_forall. intros [it n] I.
      apply in_flat_map in I as (m & Im & I).
      apply in_map_iff in I as (c & Ec & Ic). injection Ec as <- _.
      apply filter_In in Ic as [_ Hc].
      apply in_map_iff in Im as (m1 & Em & _). simpl.
      destruct (Z.eqb_spec (m_id m1) id) as [_|N]; subst m.
      * simpl in Hc. rewrite andb_false_r in Hc. discriminate.
      * exact N.
    + intros m I N. now apply update_others.
    + unfold getMenuItemById. simpl. intros old Hold.
      rewrite (update_hit_first m_id id off) by reflexivity.
      rewrite E in *. simpl in *. injection Hold as <-.
      eexists. split; [reflexivity|]. simpl. repeat split.
      assert (I : In m0 (filter (fun m => m_id m =? id) (menuItemsTable db)))
        by (rewrite E; now left).
      apply filter_In in I as [_ I]. now apply Z.eqb_eq in I.
    + repeat split.
Qed.

Lemma deleteMenuItem_soft_witness :
  exists db' it,
    deleteMenuItem Sample.env 1 Sample.store = (Ok true, db')
    /\ getMenuItemById 1 db' = Some it
    /\ m_is_available (mi_row it) = false
    /\ (mi_price it == 1550 # 100)%Q.
Proof.
  destruct (proj2 (deleteMenuItem_soft Sample.env 1 Sample.store)
              eq_refl eq_refl) as (db' & E & _ & _ & _ & K & _).
  destruct (K (to_MenuItem Sample.item1) eq_refl) as (it & G & A & _ & _ & _ & P).
  exists db', it. split; [exact E|]. split; [exact G|]. split; [exact A|].
  rewrite P. reflexivity.
Defined.

(** X19.  [getMenuItems] lists exactly the available menu items whose
    category exists and is active, each with its price parsed from the
    column and the name of that category. *)
Theorem getMenuItems_available_in_active_category (db : DB) (item : MenuItem)
  (category_name : string) :
  In (item, category_name) (getMenuItems db)
  <-> exists m c,
        In m (menuItemsTable db)
        /\ In c (categoriesTable db)
        /\ m_category_id m = c_id c
        /\ m_is_available m = true
        /\ c_is_active c = true
        /\ item = to_MenuItem m
        /\ category_name = c_name c.
Proof.
  unfold getMenuItems. rewrite in_flat_map. split.
  - intros (m & Im & I). apply in_map_iff in I as (c & E & Ic).
    injection E as <- <-. apply filter_In in Ic as [Ic H].
    apply andb_true_iff in H as [H Hc]. apply andb_true_iff in H as [He Ha].
    apply Z.eqb_eq in He. exists m, c. auto 10.
  - intros (m & c & Im & Ic & He & Ha & Hc & -> & ->).
    exists m. split; [exact Im|]. apply in_map_iff. exists c.
    split; [reflexivity|]. apply filter_In. split; [exact Ic|].
    rewrite He, Z.eqb_refl, Ha, Hc. reflexivity.
Qed.

Lemma update_menu_items_Some (k : Z) (f : menuItemsRow -> option menuItemsRow)
  (g : menuItemsRow -> menuItemsRow) (db : DB) :
  (forall m, f m = Some (g m)) ->
  update_menu_items false k f db
  = (Ok (map g (filter (fun m => m_id m =? k) (menuItemsTable db))),
     with_menu_items db
       (map (fun m => if m_id m =? k then g m else m) (menuItemsTable db))
       (seq_menu_items db)).
Proof.
  intros H. unfold update_menu_items.
  assert (A : forallb (fun m => match f m with Some _ => true | None => false end)
                      (filter (fun m => m_id m =? k) (menuItemsTable db)) = true).
  { apply forallb_forall. intros m _. now rewrite H. }
  rewrite A. f_equal.
  - f_equal. apply map_ext. intros m. now rewrite H.
  - f_equal. apply map_ext. intros m. now rewrite H.
Qed.

(** X20.  [updateMenuItem] changes only the menu item with the given
    id.  For an id no item has it fails with "Menu item not found" and
    writes nothing.  When the item exists, the category given (if any)
    is active and the price given (if any) is a whole number of
    hundredths that fits, it succeeds unless the store faults: the
    fields supplied are set, a field not supplied is kept, the price
    read back is exactly the one given, and no other row, key or table
    is touched. *)
Theorem updateMenuItem_targeted (env : Env) (input : UpdateMenuItemInput)
  (db : DB) :
  (has_id m_id (menuItemsTable db) (um_id input) = false ->
   updateMenuItem env input db = (Err (AppError "Menu item not found"), db))
  /\ (forall old price,
        getMenuItemById (um_id input) db = Some old ->
        env_fault env 0%nat = false ->
        (forall c, um_category_id input = Some c -> active_category c db <> []) ->
        match um_price input, price with
        | Some p, Some c => is_cents p c /\ Z.abs c < 10 ^ 10
        | None, None => True
        | _, _ => False
        end ->
        exists item db',
          updateMenuItem env input db = (Ok item, db')
          /\ getMenuItemById (um_id input) db' = Some item
          /\ mi_row item = updated_menu_item env input price (mi_row old)
          /\ (forall p, um_price input = Some p -> (mi_price item == p)%Q)
          /\ (um_price input = None -> mi_price item = mi_price old)
          /\ map m_id (menuItemsTable db') = map m_id (menuItemsTable db)
          /\ (forall m, In m (menuItemsTable db) -> m_id m <> um_id input ->
                        In m (menuItemsTable db'))
          /\ categoriesTable db' = categoriesTable db
          /\ ledger_untouched db' db).
Proof.
  unfold updateMenuItem. split.
  - intros M. destruct (update_miss m_id (um_id input) (fun m => m) _ M) as [_ ->].
    reflexivity.
  - intros old price Hold F Cat Price.
    unfold getMenuItemById in Hold.
    destruct (filter (fun m => m_id m =? um_id input) (menuItemsTable db))
      as [|m0 l] eqn:E; [discriminate|].
    simpl in Hold. injection Hold as <-.
    assert (Hid : m_id m0 = um_id input).
    { assert (I : In m0 (filter (fun m => m_id m =? um_id input)
                                (menuItemsTable db)))
        by (rewrite E; now left).
      apply filter_In in I as [_ I]. now apply Z.eqb_eq in I. }
    assert (OK : negb match um_category_id input with
                      | Some c => (0 <? List.length (active_category c db))%nat
                      | None => true
                      end = false).
    { destruct (um_category_id input) as [c|]; [|reflexivity].
      specialize (Cat c eq_refl).
      destruct (active_category c db); [contradiction | reflexivity]. }
    rewrite OK. unfold bind, ret. rewrite F.
    rewrite (update_menu_items_Some (um_id input) _
               (updated_menu_item env input price)).
    + rewrite E. simpl.
      eexists _, _. split; [reflexivity|]. simpl.
      split.
      { unfold getMenuItemById. simpl.
        rewrite (update_hit_first m_id (um_id input)
                   (updated_menu_item env input price)) by reflexivity.
        now rewrite E. }
      split; [reflexivity|]. split; [|split].
      * intros p Hp. rewrite Hp in Price.
        destruct price as [c|]; [|contradiction].
        destruct Price as [C _]. unfold to_MenuItem. simpl.
        now apply parseFloat_cents.
      * intros Hp. rewrite Hp in Price.
        destruct price; [contradiction | reflexivity].
      * split; [now apply update_keys|].
        split; [intros m I N; now apply update_others|].
        repeat split.
    + intros m. unfold updated_menu_item.
      destruct (um_price input) as [p|], price as [c|]; try contradiction.
      * destruct Price as [C B]. now rewrite (numeric_10_2_cents _ _ C B).
      * reflexivity.
Qed.

Lemma updateMenuItem_targeted_witness :
  exists item db',
    updateMenuItem Sample.env Fixture.reprice_item Sample.store = (Ok item, db')
    /\ (mi_price item == 1700 # 100)%Q
    /\ m_name (mi_row item) = "Test Item 1"%string.
Proof.
  destruct (proj2 (updateMenuItem_targeted Sample.env Fixture.reprice_item
                     Sample.store)
              (to_MenuItem Sample.item1) (Some 1700) eq_refl eq_refl)
    as (item & db' & E & _ & R & P & _).
  - intros c H. discriminate H.
  - split; reflexivity.
  - exists item, db'. split; [exact E|]. split.
    + apply P. reflexivity.
    + rewrite R. reflexivity.
Defined.

(* ================================================================== *)
(** ** The cashier's screen *)
(* ================================================================== *)

(** Dropping lines from a cart keeps its menu items distinct. *)
Lemma dropped_lines_keep_distinct (keep : CartItem -> bool)
  (cart : list CartItem) :
  NoDup (map (fun item => mwc_id (ci_menuItem item)) cart) ->
  NoDup (map (fun item => mwc_id (ci_menuItem item)) (filter keep cart)).
Proof.
  induction cart as [|line cart IH]; simpl; intros N; [constructor|].
  apply NoDup_cons_iff in N as [Nline N].
  destruct (keep line); simpl; [|now apply IH].
  constructor; [|now apply IH].
  intros I. apply Nline. apply in_map_iff in I as (other & E & Io).
  apply filter_In in Io as [Io _]. apply in_map_iff. eauto.
Qed.

Lemma cart_ok_update (k : Z) (g : CartItem -> CartItem) (cart : list CartItem) :
  (forall item, ci_menuItem (g item) = ci_menuItem item) ->
  (forall item, 0 < ci_quantity item -> 0 < ci_quantity (g item)) ->
  cart_ok cart ->
  cart_ok (map (fun item => if mwc_id (ci_menuItem item) =? k
                            then g item else item) cart).
Proof.
  intros Hm Hq [N Q]. split.
  - rewrite map_map.
    erewrite map_ext; [exact N|]. intros item. simpl.
    destruct (mwc_id (ci_menuItem item) =? k); [now rewrite Hm | reflexivity].
  - apply Forall_map. eapply Forall_impl; [|exact Q]. simpl. intros item H.
    destruct (mwc_id (ci_menuItem item) =? k); auto.
Qed.

Lemma cart_ok_filter (p : CartItem -> bool) (cart : list CartItem) :
  cart_ok cart -> cart_ok (filter p cart).
Proof.
  intros [N Q]. split; [now apply dropped_lines_keep_distinct|].
  apply Forall_forall. intros item I. apply filter_In in I as [I _].
  rewrite Forall_forall in Q. auto.
Qed.

Lemma addToCart_ok (m : MenuItemWithCategory) (cart : list CartItem) :
  cart_ok cart -> cart_ok (addToCart m cart).
Proof.
  intros C. unfold addToCart.
  destruct (find _ cart) as [c|] eqn:F.
  - apply (cart_ok_update (mwc_id m)
             (fun item => with_quantity item (ci_quantity item + 1)));
      [reflexivity | simpl; intros; lia | exact C].
  - destruct C as [N Q]. split.
    + rewrite map_app. simpl. apply NoDup_app; [exact N | repeat constructor; auto |].
      intros a Ia Ib. destruct Ib as [<-|[]].
      apply in_map_iff in Ia as (item & E & Ii).
      apply (find_none _ _ F) in Ii. apply Z.eqb_neq in Ii. contradiction.
    + apply Forall_app. split; [exact Q|]. repeat constructor.
Qed.

Lemma cart_event_ok (cart : list CartItem) (e : CartEvent) :
  cart_ok cart -> cart_ok (cart_event cart e).
Proof.
  intros C.
  destruct e as [menuItem | menuItemId qty | menuItemId notes | menuItemId |];
    simpl.
  - now apply addToCart_ok.
  - unfold updateCartQuantity.
    destruct (Z.leb_spec qty 0); [now apply cart_ok_filter|].
    apply (cart_ok_update menuItemId (fun item => with_quantity item qty));
      [reflexivity | simpl; intros; lia | exact C].
  - unfold updateCartNotes.
    apply (cart_ok_update menuItemId
             (fun item => {| ci_menuItem := ci_menuItem item;
                             ci_quantity := ci_quantity item;
                             ci_notes := or_null (Some notes) |}));
      [reflexivity | simpl; auto | exact C].
  - now apply cart_ok_filter.
  - split; constructor.
Qed.

(** X21.  Whatever the cashier does in the cart panel (adding an item,
    changing a quantity or a note, removing a line, clearing), starting
    from the empty cart, the cart holds at most one line per menu item
    and every quantity is positive: adding an item already present
    raises its quantity, and a quantity set to zero or less removes the
    line. *)
Theorem cart_lines_distinct_and_positive (events : list CartEvent) :
  cart_ok (fold_left cart_event events []).
Proof.
  assert (G : forall cart, cart_ok cart ->
                           cart_ok (fold_left cart_event events cart)).
  { induction events as [|e events IH]; intros cart C; simpl; [exact C|].
    apply IH, cart_event_ok, C. }
  apply G. split; constructor.
Qed.

(** *** Totals *)















(* ================================================================== *)
(** ** Sales reports *)
(* ================================================================== *)






(** *** Sales from the screen are consistent in storage *)




Lemma is_cents_plus (a b : Q) (x y : Z) :
  is_cents a x -> is_cents b y -> is_cents (a + b) (x + y).
Proof.
  unfold is_cents. intros A B. rewrite A, B.
  unfold Qeq, Qplus; simpl. lia.
Qed.





(* ================================================================== *)
(** ** The constraints of the schema hold in every reachable store *)
(* ================================================================== *)

Lemma has_id_keys {R} (id_of : R -> Z) (rows : list R) (k : Z) :
  has_id id_of rows k = true <-> In k (map id_of rows).
Proof.
  rewrite has_id_In, in_map_iff. split; intros (r & A & B); eauto.
Qed.

Lemma keys_ok_grow (keys : list Z) (n n' : Z) :
  keys_ok keys n -> n <= n' -> keys_ok keys n'.
Proof.
  intros [N F] L. split; [exact N|].
  eapply Forall_impl; [|exact F]. simpl. intros; lia.
Qed.

Lemma keys_ok_fresh (keys : list Z) (n : Z) :
  keys_ok keys n -> ~ In n keys.
Proof.
  intros [_ F] I. rewrite Forall_forall in F. specialize (F _ I). lia.
Qed.

Lemma NoDup_snoc {A} (l : list A) (a : A) :
  NoDup l -> ~ In a l -> NoDup (l ++ [a]).
Proof.
  intros N I. apply NoDup_app; [exact N | repeat constructor; intros [] |].
  intros x Ix [<-|[]]. contradiction.
Qed.

Lemma keys_ok_snoc (keys : list Z) (n : Z) :
  keys_ok keys n -> keys_ok (keys ++ [n]) (n + 1).
Proof.
  intros K. split.
  - apply NoDup_snoc; [apply K | now apply keys_ok_fresh].
  - apply Forall_app. split.
    + destruct K as [_ F]. eapply Forall_impl; [|exact F]. simpl. intros; lia.
    + repeat constructor. lia.
Qed.

Lemma seqs_le_refl (db : DB) : seqs_le db db.
Proof. unfold seqs_le. repeat split; lia. Qed.

Lemma seqs_le_trans (a b c : DB) : seqs_le a b -> seqs_le b c -> seqs_le a c.
Proof. unfold seqs_le. intros (?&?&?&?&?) (?&?&?&?&?). repeat split; lia. Qed.

(** *** The statement combinators *)

Lemma sound_ret {A} (a : A) : sound (ret a).
Proof. intros db I. split; [exact I | apply seqs_le_refl]. Qed.

Lemma sound_fail {A} (e : Error) : sound (fun db => (@Err A e, db)).
Proof. intros db I. split; [exact I | apply seqs_le_refl]. Qed.

Lemma sound_bind {A B} (m : Stmt A) (k : A -> Stmt B) :
  sound m -> (forall a, sound (k a)) -> sound (bind m k).
Proof.
  intros Sm Sk db I. unfold bind.
  destruct (Sm db I) as [I' L'].
  destruct (m db) as [[a|e] d]; simpl in *.
  - destruct (Sk a d I') as [I'' L'']. split; [exact I''|].
    eapply seqs_le_trans; eauto.
  - auto.
Qed.

Lemma rollback_integrity (db db' : DB) :
  integrity db -> seqs_le db db' -> integrity (rollback db db').
Proof.
  intros (U & C & M & T & I & R) (Lu & Lc & Lm & Lt & Li).
  unfold integrity, rollback; simpl.
  repeat (split; [eapply keys_ok_grow; eassumption|]). exact R.
Qed.

Lemma sound_db_transaction {A} (c : bool) (body : Stmt A) :
  sound body -> sound (db_transaction c body).
Proof.
  intros Sb db I. unfold db_transaction.
  destruct (Sb db I) as [I' L'].
  destruct (body db) as [[a|e] d]; simpl in *.
  - destruct c; simpl; [|auto].
    split; [now apply rollback_integrity | exact L'].
  - split; [now apply rollback_integrity | exact L'].
Qed.

Lemma sound_mutation {I A} (schema : I -> bool) (handler : I -> Stmt A)
  (wrap : A -> Response) (input : I) :
  sound (handler input) -> sound (mutation schema handler wrap input).
Proof.
  intros S db Idb. unfold mutation.
  destruct (schema input).
  - apply (sound_bind _ _ S (fun a => sound_ret (wrap a))). exact Idb.
  - split; [exact Idb | apply seqs_le_refl].
Qed.

Lemma sound_query {A} (handler : DB -> result A) (wrap : A -> Response) :
  sound (query handler wrap).
Proof.
  intros db I. unfold query.
  destruct (handler db); split; auto using seqs_le_refl.
Qed.

(** *** The writes *)

Lemma sound_insert_user (fault : bool) (now : Z) (username password : string)
  (role : UserRole) (full_name : string) :
  sound (insert_user fault now username password role full_name).
Proof.
  intros db I. unfold insert_user.
  destruct fault; [split; [exact I | apply seqs_le_refl]|].
  destruct (by_username username db) eqn:B;
    [|split; [exact I | apply seqs_le_refl]].
  apply by_username_nil in B.
  destruct I as (U & C & M & T & L & N & R1 & R2 & R3 & R4).
  split; [|unfold seqs_le; simpl; repeat split; lia].
  unfold integrity; simpl. rewrite !map_app; simpl.
  split; [now apply keys_ok_snoc|].
  repeat (split; [assumption|]).
  split.
  { apply NoDup_snoc; [exact N|]. intros Hin.
    apply in_map_iff in Hin as (u & E & Hu).
    rewrite Forall_forall in B. exact (B u Hu E). }
  repeat (split; [assumption|]).
  split; [|split; assumption].
  intros k Hk. apply in_or_app. left. now apply R2.
Qed.

Lemma sound_createUser (env : Env) (input : CreateUserInput) :
  sound (createUser env input).
Proof.
  intros db I. unfold createUser.
  destruct (by_username (cu_username input) db).
  - now apply sound_insert_user.
  - split; [exact I | apply seqs_le_refl].
Qed.

Lemma sound_initializeDefaultAdmin (env : Env) :
  sound (initializeDefaultAdmin env).
Proof.
  intros db I. unfold initializeDefaultAdmin.
  destruct (by_username "admin" db).
  - apply sound_bind; [apply sound_insert_user | intros; apply sound_ret |].
    exact I.
  - split; [exact I | apply seqs_le_refl].
Qed.

Lemma sound_createCategory (env : Env) (input : CreateCategoryInput) :
  sound (createCategory env input).
Proof.
  intros db I. unfold createCategory.
  destruct (env_fault env 0%nat); [split; [exact I | apply seqs_le_refl]|].
  destruct I as (U & C & M & T & L & N & R1 & R2 & R3 & R4).
  split; [|unfold seqs_le; simpl; repeat split; lia].
  unfold integrity; simpl. rewrite !map_app; simpl.
  split; [assumption|]. split; [now apply keys_ok_snoc|].
  repeat (split; [assumption|]).
  split; [|repeat split; assumption].
  intros k Hk. apply in_or_app. left. now apply R1.
Qed.

Lemma sound_update_categories (fault : bool) (k : Z)
  (f : categoriesRow -> categoriesRow) :
  (forall c, c_id (f c) = c_id c) -> sound (update_categories fault k f).
Proof.
  intros Hf db I. unfold update_categories.
  destruct fault; [split; [exact I | apply seqs_le_refl]|].
  split; [|unfold seqs_le; simpl; repeat split; lia].
  unfold integrity; simpl. rewrite (update_keys c_id k f _ Hf). exact I.
Qed.

Lemma sound_updateCategory (env : Env) (input : UpdateCategoryInput) :
  sound (updateCategory env input).
Proof.
  unfold updateCategory. apply sound_bind.
  - apply sound_update_categories. reflexivity.
  - intros [|r l]; [apply sound_fail | apply sound_ret].
Qed.

Lemma sound_deleteCategory (env : Env) (id : Z) :
  sound (deleteCategory env id).
Proof.
  unfold deleteCategory. apply sound_bind.
  - apply sound_update_categories. reflexivity.
  - intros; apply sound_ret.
Qed.

Lemma active_category_key (id : Z) (db : DB) :
  active_category id db <> [] -> In id (map c_id (categoriesTable db)).
Proof.
  unfold active_category. intros H.
  destruct (filter _ _) as [|c l] eqn:F; [contradiction|].
  assert (Ic : In c (c :: l)) by now left.
  rewrite <- F in Ic. apply filter_In in Ic as [Ic E].
  apply andb_true_iff in E as [E _]. apply Z.eqb_eq in E. subst id.
  now apply in_map.
Qed.

Lemma sound_createMenuItem (env : Env) (input : CreateMenuItemInput) :
  sound (createMenuItem env input).
Proof.
  intros db I. unfold createMenuItem.
  destruct (active_category (cm_category_id input) db) eqn:A;
    [split; [exact I | apply seqs_le_refl]|].
  destruct (env_fault env 0%nat); [split; [exact I | apply seqs_le_refl]|].
  destruct (numeric_10_2 (cm_price input)) as [price|];
    [|split; [exact I | apply seqs_le_refl]].
  assert (K : In (cm_category_id input) (map c_id (categoriesTable db))).
  { apply active_category_key. rewrite A. discriminate. }
  destruct I as (U & C & M & T & L & N & R1 & R2 & R3 & R4).
  split; [|unfold seqs_le; simpl; repeat split; lia].
  unfold integrity; simpl. rewrite !map_app; simpl.
  split; [assumption|]. split; [assumption|].
  split; [now apply keys_ok_snoc|].
  repeat (split; [assumption|]).
  split.
  { intros k Hk. apply in_app_or in Hk as [Hk|[<-|[]]]; auto. }
  repeat (split; [assumption|]).
  intros k Hk. apply in_or_app. left. now apply R4.
Qed.

Lemma sound_update_menu_items (fault : bool) (k : Z)
  (f : menuItemsRow -> option menuItemsRow) (db : DB) :
  (forall m m', f m = Some m' ->
     m_id m' = m_id m
     /\ (m_category_id m' = m_category_id m
         \/ In (m_category_id m') (map c_id (categoriesTable db)))) ->
  integrity db ->
  integrity (snd (update_menu_items fault k f db))
  /\ seqs_le db (snd (update_menu_items fault k f db)).
Proof.
  intros Hf I. unfold update_menu_items.
  destruct fault; [split; [exact I | apply seqs_le_refl]|].
  destruct (forallb _ _); [|split; [exact I | apply seqs_le_refl]].
  split; [|unfold seqs_le; simpl; repeat split; lia].
  destruct I as (U & C & M & T & L & N & R1 & R2 & R3 & R4).
  unfold integrity; simpl.
  set (f' := fun m => match f m with Some m' => m' | None => m end).
  assert (Hid : forall m, m_id (f' m) = m_id m).
  { intros m. unfold f'. destruct (f m) as [m'|] eqn:E; [|reflexivity].
    now apply Hf. }
  rewrite (update_keys m_id k f' _ Hid).
  repeat (split; [assumption|]).
  split; [|repeat split; assumption].
  intros c Hc. apply in_map_iff in Hc as (m1 & <- & Hm1).
  apply in_map_iff in Hm1 as (m & <- & Hm).
  assert (Old : In (m_category_id m) (map c_id (categoriesTable db)))
    by (apply R1; now apply in_map).
  destruct (m_id m =? k); [|exact Old].
  unfold f'. destruct (f m) as [m'|] eqn:E; [|exact Old].
  destruct (Hf _ _ E) as [_ [-> | H]]; assumption.
Qed.

Lemma sound_updateMenuItem (env : Env) (input : UpdateMenuItemInput) :
  sound (updateMenuItem env input).
Proof.
  intros db I. unfold updateMenuItem.
  destruct (filter _ (menuItemsTable db)) as [|hit hits];
    [split; [exact I | apply seqs_le_refl]|].
  destruct (negb _) eqn:G; [split; [exact I | apply seqs_le_refl]|].
  apply negb_false_iff in G.
  unfold bind.
  match goal with
  | |- context [update_menu_items ?c ?k ?f db] =>
      pose proof (sound_update_menu_items c k f db) as S
  end.
  match type of S with
  | ?P -> _ => assert (Hf : P)
  end.
  { intros m m' E.
    destruct (match um_price input with
              | Some p => numeric_10_2 p
              | None => Some (m_price m)
              end) as [price|]; [|discriminate].
    injection E as <-. simpl. split; [reflexivity|].
    destruct (um_category_id input) as [c|]; simpl; [right | now left].
    apply active_category_key. intros Z.
    rewrite Z in G. discriminate. }
  specialize (S Hf I).
  destruct (update_menu_items _ _ _ db) as [[[|r l]|e] d]; simpl in *;
    exact S.
Qed.

Lemma sound_deleteMenuItem (env : Env) (id : Z) :
  sound (deleteMenuItem env id).
Proof.
  intros db I. unfold deleteMenuItem.
  destruct (filter _ (menuItemsTable db)) as [|hit hits];
    [split; [exact I | apply seqs_le_refl]|].
  unfold bind, ret.
  match goal with
  | |- context [update_menu_items ?c ?k ?f db] =>
      pose proof (sound_update_menu_items c k f db) as S
  end.
  match type of S with
  | ?P -> _ => assert (Hf : P)
  end.
  { intros m m' E. injection E as <-. simpl. auto. }
  specialize (S Hf I).
  destruct (update_menu_items _ _ _ db) as [[l|e] d]; simpl in *; exact S.
Qed.

Lemma sound_insert_transaction (fault : bool) (now : Z)
  (v : transactionsValues) :
  sound (insert_transaction fault now v).
Proof.
  intros db I. unfold insert_transaction.
  destruct fault; [split; [exact I | apply seqs_le_refl]|].
  destruct (has_id u_id (usersTable db) (tv_cashier_id v)) eqn:H; simpl;
    [|split; [exact I | apply seqs_le_refl]].
  destruct (transactions_row now (seq_transactions db) v) as [row|] eqn:R;
    [|split; [exact I | apply seqs_le_refl]].
  assert (Hrow : tx_id row = seq_transactions db
                 /\ tx_cashier_id row = tv_cashier_id v).
  { unfold transactions_row in R.
    repeat match type of R with
           | match ?x with _ => _ end = _ => destruct x; [|discriminate]
           end.
    injection R as <-. auto. }
  destruct Hrow as [Hid Hc].
  destruct I as (U & C & M & T & L & N & R1 & R2 & R3 & R4).
  split; [|unfold seqs_le; simpl; repeat split; lia].
  unfold integrity; simpl. rewrite !map_app; simpl.
  repeat (split; [assumption|]).
  split; [rewrite Hid; now apply keys_ok_snoc|].
  repeat (split; [assumption|]).
  split.
  { intros k Hk. apply in_app_or in Hk as [Hk|[<-|[]]]; auto.
    rewrite Hc. now apply has_id_keys. }
  split; [|assumption].
  intros k Hk. apply in_or_app. left. now apply R3.
Qed.

Lemma transaction_items_rows_keys (db : DB)
  (vs : list transactionItemsValues) :
  forall id rows keys,
    transaction_items_rows db id vs = Some rows ->
    keys_ok keys id ->
    keys_ok (keys ++ map ti_id rows) (id + Z.of_nat (List.length rows))
    /\ incl (map ti_transaction_id rows) (map tx_id (transactionsTable db))
    /\ incl (map ti_menu_item_id rows) (map m_id (menuItemsTable db)).
Proof.
  induction vs as [|v vs IH]; simpl; intros id rows keys H K.
  - injection H as <-. simpl. rewrite app_nil_r, Z.add_0_r.
    split; [exact K|]. split; intros k [].
  - destruct (has_id tx_id _ _ && has_id m_id _ _) eqn:G; [|discriminate].
    apply andb_true_iff in G as [G1 G2].
    destruct (transaction_items_row id v) as [r|] eqn:R; [|discriminate].
    destruct (transaction_items_rows db (id + 1) vs) as [rs|] eqn:RS;
      [|discriminate].
    injection H as <-.
    assert (Hr : ti_id r = id /\ ti_transaction_id r = iv_transaction_id v
                 /\ ti_menu_item_id r = iv_menu_item_id v).
    { unfold transaction_items_row in R.
      repeat match type of R with
             | match ?x with _ => _ end = _ => destruct x; [|discriminate]
             end.
      injection R as <-. auto. }
    destruct Hr as (Hi & Ht & Hm).
    destruct (IH (id + 1) rs (keys ++ [id]) RS (keys_ok_snoc _ _ K))
      as (K' & T' & M').
    cbn [List.length map]. rewrite Hi, Ht, Hm.
    rewrite <- app_assoc in K'. simpl in K'.
    split; [|split].
    + replace (id + Z.of_nat (S (List.length rs)))
        with (id + 1 + Z.of_nat (List.length rs)) by lia.
      exact K'.
    + intros k [<-|Hk]; [now apply has_id_keys | now apply T'].
    + intros k [<-|Hk]; [now apply has_id_keys | now apply M'].
Qed.

Lemma sound_insert_transaction_items (fault : bool)
  (vs : list transactionItemsValues) :
  sound (insert_transaction_items fault vs).
Proof.
  intros db I. unfold insert_transaction_items.
  destruct vs as [|v vs]; [split; [exact I | apply seqs_le_refl]|].
  destruct fault; [split; [exact I | apply seqs_le_refl]|].
  destruct (transaction_items_rows db (seq_transaction_items db) (v :: vs))
    as [rows|] eqn:R; [|split; [exact I | apply seqs_le_refl]].
  destruct I as (U & C & M & T & L & N & R1 & R2 & R3 & R4).
  destruct (transaction_items_rows_keys _ _ _ _ _ R L) as (K' & T' & M').
  split; [|unfold seqs_le; simpl; repeat split; lia].
  unfold integrity; simpl. rewrite !map_app.
  repeat (split; [assumption|]).
  split; apply incl_app; assumption.
Qed.

Lemma sound_createTransaction (env : Env) (input : CreateTransactionInput) :
  sound (createTransaction env input).
Proof.
  unfold createTransaction. apply sound_bind; [|intros; apply sound_ret].
  apply sound_db_transaction.
  apply sound_bind; [apply sound_insert_transaction|]. intros row.
  apply sound_bind; [apply sound_insert_transaction_items|]. intros _.
  apply sound_ret.
Qed.

Lemma sound_appRouter (O : StorageOrder) (L : LocalTime) (env : Env)
  (req : Request) :
  sound (appRouter env req).
Proof.
  destruct req; unfold appRouter;
    try apply sound_query; apply sound_mutation.
  - apply sound_createUser.
  - apply sound_initializeDefaultAdmin.
  - apply sound_createCategory.
  - apply sound_updateCategory.
  - apply sound_deleteCategory.
  - apply sound_createMenuItem.
  - apply sound_updateMenuItem.
  - apply sound_deleteMenuItem.
  - apply sound_createTransaction.
Qed.

Lemma emptyDB_integrity : integrity emptyDB.
Proof.
  unfold integrity, keys_ok; simpl.
  repeat split; try constructor; intros k [].
Qed.

Lemma serve_integrity (O : StorageOrder) (L : LocalTime)
  (calls : list (Env * Request)) (db : DB) :
  integrity db -> integrity (serve calls db).
Proof.
  unfold serve. revert db.
  induction calls as [|[env req] calls IH]; intros db I; simpl; [exact I|].
  apply IH. apply (sound_appRouter O L env req db I).
Qed.

(** X27.  Whatever requests the server has answered since the empty
    store, and whichever of their writes failed, the constraints of the
    schema hold: the keys of each table are distinct and below its
    counter, usernames are distinct, every menu item names a stored
    category, every transaction a stored cashier, and every line a
    stored transaction and a stored menu item. *)
Theorem schema_constraints_hold (O : StorageOrder) (L : LocalTime)
  (calls : list (Env * Request)) :
  integrity (serve calls emptyDB).
Proof. apply serve_integrity, emptyDB_integrity. Qed.

(** *** What the constraints give the listings *)

Lemma filter_key_one {R} (id_of : R -> Z) (l : list R) (k : Z) :
  NoDup (map id_of l) -> In k (map id_of l) ->
  exists r, filter (fun r => k =? id_of r) l = [r] /\ In r l /\ id_of r = k.
Proof.
  induction l as [|a l IH]; simpl; [intros _ []|].
  intros N I. apply NoDup_cons_iff in N as [Na N].
  destruct (Z.eqb_spec k (id_of a)) as [E|NE].
  - exists a. split; [|auto]. f_equal.
    apply filter_none_in. intros r Ir.
    destruct (Z.eqb_spec k (id_of r)) as [E'|]; [|reflexivity].
    exfalso. apply Na. rewrite <- E, E'. now apply in_map.
  - destruct I as [I|I]; [congruence|].
    destruct (IH N I) as (r & F & Ir & Hr). exists r. auto.
Qed.

Lemma join_cashier_exactly_one (db : DB) (ts : list transactionsRow) :
  NoDup (map u_id (usersTable db)) ->
  incl (map tx_cashier_id ts) (map u_id (usersTable db)) ->
  map fst (join_cashier db ts) = ts.
Proof.
  intros N. unfold join_cashier.
  induction ts as [|t ts IH]; simpl; intros I; [reflexivity|].
  destruct (filter_key_one u_id (usersTable db) (tx_cashier_id t) N)
    as (u & -> & _); [apply I; now left|].
  simpl. f_equal. apply IH. intros k Hk. apply I. now right.
Qed.

(** X28.  In every store the server can reach, [getTransactions]
    without a limit returns each stored transaction exactly once: the
    join with the cashier neither drops a transaction nor repeats one. *)
Theorem getTransactions_lists_every_transaction
  (O : StorageOrder) (L : LocalTime) (calls : list (Env * Request))
  (offset : option Z) :
  exists l,
    getTransactions None offset (serve calls emptyDB) = Ok l
    /\ Permutation (ids l)
                   (map tx_id (transactionsTable (serve calls emptyDB)))
    /\ NoDup (ids l).
Proof.
  pose proof (serve_integrity O L calls emptyDB emptyDB_integrity)
    as ((Nu & _) & _ & _ & (Nt & _) & _ & _ & _ & R2 & _).
  set (db := serve calls emptyDB) in *.
  destruct (getTransactions_all O offset db) as (acc & E).
  exists (map (hydrate acc) (baseQuery O db)). split; [exact E|].
  assert (P : Permutation (ids (map (hydrate acc) (baseQuery O db)))
                          (map tx_id (transactionsTable db))).
  { unfold ids. rewrite map_map.
    transitivity (map tx_id (map fst (join_cashier db (transactionsTable db))));
      [|now rewrite join_cashier_exactly_one].
    rewrite map_map.
    apply (Permutation_map (fun x => tx_id (fst x))), Permutation_sym.
    apply order_by_desc_perm. }
  split; [exact P|].
  eapply Permutation_NoDup; [apply Permutation_sym, P | exact Nt].
Qed.

(** X29.  In every store the server can reach, every stored
    transaction can be fetched by its id, and the answer carries that
    transaction's header, its own lines and the full name of its
    cashier. *)
Theorem getTransactionById_finds_every_transaction
  (O : StorageOrder) (L : LocalTime) (calls : list (Env * Request)) :
  Forall
    (fun row =>
       exists e u,
         getTransactionById (tx_id row) (serve calls emptyDB) = Some e
         /\ tw_header e = to_Transaction row
         /\ tw_items e
            = map to_TransactionItem (lines_of (serve calls emptyDB) (tx_id row))
         /\ In u (usersTable (serve calls emptyDB))
         /\ u_id u = tx_cashier_id row
         /\ tw_cashier_full_name e = u_full_name u)
    (transactionsTable (serve calls emptyDB)).
Proof.
  pose proof (serve_integrity O L calls emptyDB emptyDB_integrity)
    as ((Nu & _) & _ & _ & (Nt & _) & _ & _ & _ & R2 & _).
  set (db := serve calls emptyDB) in *.
  apply Forall_forall. intros row Ir.
  destruct (filter_key_one tx_id (transactionsTable db) (tx_id row) Nt)
    as (row' & F & Ir' & E); [now apply in_map|].
  assert (row' = row).
  { clear F. revert Nt Ir Ir' E. generalize (transactionsTable db) as ts.
    induction ts as [|a ts IH]; simpl; [intros _ []|].
    intros N I I' E. apply NoDup_cons_iff in N as [Na N].
    destruct I as [->|I], I' as [->|I']; auto.
    - exfalso. apply Na. rewrite <- E. now apply in_map.
    - exfalso. apply Na. rewrite E. now apply in_map. }
  subst row'.
  destruct (filter_key_one u_id (usersTable db) (tx_cashier_id row) Nu)
    as (u & Fu & Iu & Eu); [apply R2; now apply in_map|].
  unfold getTransactionById, join_cashier, lines_of.
  assert (F' : filter (fun t => tx_id t =? tx_id row) (transactionsTable db)
               = [row]).
  { rewrite <- F. apply filter_ext. intros t. apply Z.eqb_sym. }
  rewrite F'. simpl. rewrite Fu. simpl.
  eexists; exists u. repeat split; auto.
Qed.
